(** * brettgws.sheets.a1: the A1 range notation of Google Sheets

    A shallow embedding of [src/brettgws/sheets/a1.py] (class
    [GoogleSheetsA1Notation]) and of the constant it imports from
    [src/brettgws/sheets/__init__.py].

    Modelling choices, all taken from the source:
    - a Python [str] is a [string]; a character is the code point below 256
      that the [ascii] stands for (Latin-1), and the classes [\s], [\w], [\d]
      and [.] of the [re] module are the Unicode ones cut to that range;
    - a Python [int] is a [Z]; [int(text)] and [str(number)] are the plain
      decimal conversions (the interpreter's optional cap on the number of
      digits of a conversion is not modelled);
    - a call that can raise returns a [result]; the object is a record and
      its methods pass it along explicitly;
    - the patterns are written in a small regular-expression syntax and run
      by a backtracking matcher with the priorities of [re]: the left
      alternative first, the longest repetition first. *)

From Stdlib Require Import ZArith Lia Bool List Ascii String.
Import ListNotations.
Open Scope string_scope.
Open Scope Z_scope.

(** ** Python values and exceptions *)

Module Py.

Inductive exn : Set := TypeError | ValueError | IndexError.

Inductive result (A : Type) : Type :=
| Ok (a : A)
| Raise (e : exn).
Arguments Ok {A} a.
Arguments Raise {A} e.

Definition bind {A B} (m : result A) (f : A -> result B) : result B :=
  match m with
  | Ok a => f a
  | Raise e => Raise e
  end.

Definition code (c : ascii) : Z := Z.of_N (N_of_ascii c).

(** The double quote, code point 34. *)
Definition dquote : ascii := Eval cbv in ascii_of_N 34.

Definition between (lo hi : Z) (c : ascii) : bool :=
  (lo <=? code c) && (code c <=? hi).

(** [ord] and [chr]. [chr] raises below 0; the callers never pass more
    than 90, so the code points from 256 on, which a [string] cannot hold,
    are out of range here. *)
Definition ord (c : ascii) : Z := code c.

Definition chr (n : Z) : result string :=
  if (0 <=? n) && (n <? 256) then Ok (String (ascii_of_N (Z.to_N n)) "")
  else Raise ValueError.

(** Truth value of a [str] and of an [int]. *)
Definition truthy (s : string) : bool :=
  match s with EmptyString => false | _ => true end.

Definition nonzero (n : Z) : bool := negb (n =? 0).

(** [str.upper] on Latin-1. The sharp s becomes two letters. The capitals
    of the micro sign and of y with diaeresis lie beyond code point 255;
    both are left as they are, which keeps them outside [A-Z], the only
    thing the callers look at. *)
Definition upper_char (c : ascii) : string :=
  if between 97 122 c || between 224 246 c || between 248 254 c
  then String (ascii_of_N (Z.to_N (code c - 32))) ""
  else if code c =? 223 then "SS"
  else String c "".

Fixpoint upper (s : string) : string :=
  match s with
  | EmptyString => EmptyString
  | String c s' => upper_char c ++ upper s'
  end.

(** [str(n)] for a positive [n] and [int(text)] for a run of digits. *)
Definition digit_char (d : Z) : ascii := ascii_of_N (Z.to_N (48 + d)).

Fixpoint digits (fuel : nat) (n : Z) (acc : string) : string :=
  match fuel with
  | O => acc
  | S fuel' =>
      let acc' := String (digit_char (n mod 10)) acc in
      if n / 10 =? 0 then acc' else digits fuel' (n / 10) acc'
  end.

Definition str_int (n : Z) : string :=
  if n <? 0 then String "-" (digits (S (Z.to_nat (- n))) (- n) "")
  else digits (S (Z.to_nat n)) n "".

Fixpoint int_acc (s : string) (acc : Z) : Z :=
  match s with
  | EmptyString => acc
  | String c s' => int_acc s' (10 * acc + (code c - 48))
  end.

Definition int_str (s : string) : Z := int_acc s 0.

Fixpoint reversed (s : string) (acc : string) : string :=
  match s with
  | EmptyString => acc
  | String c s' => reversed s' (String c acc)
  end.

Fixpoint all (p : ascii -> bool) (s : string) : bool :=
  match s with
  | EmptyString => true
  | String c s' => p c && all p s'
  end.

Fixpoint take (n : nat) (s : string) : string :=
  match n, s with
  | S n', String c s' => String c (take n' s')
  | _, _ => EmptyString
  end.

End Py.
Export Py.

Notation "x <- m ;; k" := (bind m (fun x => k))
  (at level 61, m at next level, right associativity).

(** ** The regular expressions of [re] that the class uses *)

Module Re.

(** Character classes over Latin-1. *)
Definition space (c : ascii) : bool :=
  between 9 13 c || between 28 32 c || (code c =? 133) || (code c =? 160).

Definition digit (c : ascii) : bool := between 48 57 c.

Definition AZ (c : ascii) : bool := between 65 90 c.

Definition alpha (c : ascii) : bool := between 65 90 c || between 97 122 c.

Definition word (c : ascii) : bool :=
  between 48 57 c || between 65 90 c || (code c =? 95) || between 97 122 c
  || (code c =? 170) || between 178 179 c || (code c =? 181)
  || between 185 186 c || between 188 190 c || between 192 214 c
  || between 216 246 c || between 248 255 c.

Definition dot (c : ascii) : bool := negb (code c =? 10).

(** The syntax: a literal character, a greedy repetition [p{lo,hi}] of a
    class ([hi = None] for no upper bound), sequence, ordered alternative,
    greedy option, named group, and [$]. *)
Inductive regex : Type :=
| Lit (c : ascii)
| Rep (p : ascii -> bool) (lo : nat) (hi : option nat)
| Seq (r1 r2 : regex)
| Alt (r1 r2 : regex)
| Opt (r : regex)
| Grp (name : string) (r : regex)
| Eol.

Definition groups : Type := list (string * string).

Fixpoint group (g : groups) (name : string) : option string :=
  match g with
  | [] => None
  | (n, v) :: g' => if String.eqb n name then Some v else group g' name
  end.

(** The characters of [s] before its suffix [rest]. *)
Definition consumed (s rest : string) : string :=
  take (String.length s - String.length rest) s.

Section Matcher.
Context {A : Type}.

Definition more (hi : option nat) : bool :=
  match hi with Some O => false | _ => true end.

Fixpoint rep (p : ascii -> bool) (lo : nat) (hi : option nat)
    (s : string) (k : string -> option A) : option A :=
  let stop := if Nat.eqb lo 0 then k s else None in
  match s with
  | String c s' =>
      if p c && more hi then
        match rep p (pred lo) (option_map pred hi) s' k with
        | Some y => Some y
        | None => stop
        end
      else stop
  | EmptyString => stop
  end.

Fixpoint run (r : regex) (s : string) (g : groups)
    (k : string -> groups -> option A) : option A :=
  match r with
  | Lit c =>
      match s with
      | String c' s' => if Ascii.eqb c c' then k s' g else None
      | EmptyString => None
      end
  | Rep p lo hi => rep p lo hi s (fun rest => k rest g)
  | Seq r1 r2 => run r1 s g (fun s1 g1 => run r2 s1 g1 k)
  | Alt r1 r2 =>
      match run r1 s g k with
      | Some y => Some y
      | None => run r2 s g k
      end
  | Opt r1 =>
      match run r1 s g k with
      | Some y => Some y
      | None => k s g
      end
  | Grp name r1 =>
      run r1 s g (fun rest g1 => k rest ((name, consumed s rest) :: g1))
  | Eol =>
      match s with
      | EmptyString => k s g
      | String c EmptyString => if code c =? 10 then k s g else None
      | _ => None
      end
  end.
End Matcher.

(** [pattern.match(s)]: the match starts at the first character, which is
    all that the leading [^] of the patterns asks for; the result is
    [group(0)] with the named groups. *)
Definition re_match (r : regex) (s : string) : option (string * groups) :=
  run r s [] (fun rest g => Some (consumed s rest, g)).

End Re.
Export Re.

Declare Scope regex_scope.
Delimit Scope regex_scope with re.
Bind Scope regex_scope with regex.
Notation "r1 ;; r2" := (Seq r1 r2) (at level 61, right associativity) : regex_scope.

(** ** The class [GoogleSheetsA1Notation] *)

(** [GoogleSheetsMaxColumns] of the package: up to 'ZZZ'. *)
Definition GoogleSheetsMaxColumns : Z := 18278.

(** A title: [\w+|\".+\"|\'.+\'], the group that three patterns share. *)
Definition title_re : regex :=
  Alt (Rep word 1 None)
      (Alt (Lit dquote ;; Rep dot 1 None ;; Lit dquote)
           (Lit "'" ;; Rep dot 1 None ;; Lit "'")).

Definition col_re (lo : nat) : regex := Rep AZ lo (Some 3%nat).

(** [_A1REGEXSTR], with its two optional parts named. *)
Definition sheet_part : regex := (Grp "sheet" title_re ;; Lit "!")%re.

Definition bounds_part : regex :=
  (Opt (Grp "start_col" (col_re 0)) ;;
   Opt (Grp "start_row" (Rep digit 1 None)) ;;
   Lit ":" ;;
   Opt (Grp "end_col" (col_re 0)) ;;
   Opt (Grp "end_row" (Rep digit 1 None)))%re.

Definition _a1_re : regex :=
  (Rep space 0 None ;; Opt sheet_part ;; Opt bounds_part ;;
   Rep space 0 None ;; Eol)%re.

(** [_A1COLREGEXSTR] *)
Definition _a1_col_re : regex := (col_re 1 ;; Eol)%re.

(** [_A1SHEETREGEXSTR], and the same followed by [$] as [extract_a1]
    builds it. *)
Definition _a1_sheet_re : regex := (Rep space 0 None ;; title_re)%re.

Definition _a1_sheet_only_re : regex := (_a1_sheet_re ;; Eol)%re.

(** [^[a-zA-Z]+\w*$], the bare titles of [generate_a1]. *)
Definition bare_title_re : regex := (Rep alpha 1 None ;; Rep word 0 None ;; Eol)%re.

Definition matches (r : regex) (s : string) : bool :=
  match re_match r s with Some _ => true | None => false end.

(** A column argument is a [str] or an [int]. *)
Inductive colarg : Type :=
| ColStr (s : string)
| ColInt (i : Z).

Definition col_truthy (c : colarg) : bool :=
  match c with
  | ColStr s => truthy s
  | ColInt i => nonzero i
  end.

(** The state of an object, as [reset] lists it. *)
Record A1 : Type := mkA1 {
  _a1 : string;
  _sheet : string;
  _start_col : string;
  _end_col : string;
  _start_col_int : Z;
  _end_col_int : Z;
  _start_row : Z;
  _end_row : Z
}.

Definition reset : A1 := mkA1 "" "" "" "" 0 0 0 0.

(** *** The column codec *)

Fixpoint col_sum (rev : string) (i : Z) (num : Z) : Z :=
  match rev with
  | EmptyString => num
  | String v rest => col_sum rest (i + 1) (num + (ord v - 64) * 26 ^ i)
  end.

Definition col_to_int (column : string) : Z :=
  let c := upper column in
  if matches _a1_col_re c then col_sum (reversed c "") 0 0 else 0.

(** One round of the loop [for p in [2,1,0]] on the pair [(col, i)]. *)
Definition int_to_col_step (p : Z) (st : string * Z) : result (string * Z) :=
  let '(col, i) := st in
  let d := i / 26 ^ p in
  let r := i mod 26 ^ p in
  if nonzero d then
    if d >? 26 then
      let leftovers := d - 26 in
      Ok (col ++ "Z", r + leftovers * 26 ^ p)
    else
      c <- chr (d + 64) ;; Ok (col ++ c, r)
  else Ok (col, r).

Definition int_to_col (index : Z) : result string :=
  let i := index in
  if i <=? GoogleSheetsMaxColumns then
    st <- int_to_col_step 2 ("", i) ;;
    st <- int_to_col_step 1 st ;;
    st <- int_to_col_step 0 st ;;
    Ok (fst st)
  else Ok "".

Definition col_text (c : colarg) : result string :=
  match c with
  | ColInt i => int_to_col i
  | ColStr s => Ok s
  end.

(** *** Strings from parts, and parts from strings *)

Definition valid_a1 (a1 : string) : bool := matches _a1_re a1.

(** The quoting of a title that is neither quoted nor bare; [a1[0]] raises
    on the empty string, which the caller's pattern excludes. *)
Definition quoted_title (a1 : string) : result string :=
  match a1 with
  | EmptyString => Raise IndexError
  | String c _ =>
      if Ascii.eqb c "'" || Ascii.eqb c dquote then Ok a1
      else if matches bare_title_re a1 then Ok a1
      else Ok (String dquote (a1 ++ String dquote ""))
  end.

Definition with_bang (a1 : string) : string :=
  if truthy a1 then a1 ++ "!" else a1.

Definition with_row (a1 : string) (row : Z) : string :=
  if nonzero row && (row >? 0) then a1 ++ str_int row else a1.

Definition generate_a1 (sheet : string) (start_col : colarg) (start_row : Z)
    (end_col : colarg) (end_row : Z) : result string :=
  let a1 := sheet in
  if matches _a1_sheet_re a1 then
    a1 <- quoted_title a1 ;;
    if col_truthy start_col then
      sc <- col_text start_col ;;
      if matches _a1_col_re sc then
        let a1 := with_row (with_bang a1 ++ sc) start_row in
        if col_truthy end_col then
          ec <- col_text end_col ;;
          if matches _a1_col_re ec then
            Ok (with_row (a1 ++ ":" ++ ec) end_row)
          else Ok a1
        else Ok a1
      else Ok a1
    else if nonzero start_row then
      if start_row >? 0 then
        (* [a1 += sr] adds an [int] to a [str] *)
        Raise TypeError
      else Ok a1
    else Ok a1
  else Ok "".

(** [m.group(name)] when it is there and not empty, [""] otherwise. *)
Definition grp (g : groups) (name : string) : string :=
  match group g name with
  | Some v => v
  | None => ""
  end.

Definition grp_int (g : groups) (name : string) : Z :=
  if truthy (grp g name) then int_str (grp g name) else 0.

Definition dims : Type := string * string * Z * string * Z.

Definition extract_a1 (a1 : string) : dims :=
  match re_match _a1_re a1 with
  | Some (_, g) =>
      let sheet := grp g "sheet" in
      let sc := grp g "start_col" in
      let sr := grp_int g "start_row" in
      let ec := grp g "end_col" in
      let er := grp_int g "end_row" in
      if nonzero sr && negb (truthy sc) then (sheet, "A", sr, ec, er)
      else if truthy sc && negb (nonzero sr) then (sheet, sc, 1, ec, er)
      else (sheet, sc, sr, ec, er)
  | None =>
      match re_match _a1_sheet_only_re a1 with
      | Some (whole, _) => (whole, "", 0, "", 0)
      | None => ("", "", 0, "", 0)
      end
  end.

Definition valid_dimensions (d : dims) : bool :=
  let '(title, sc, sr, ec, er) := d in
  if negb (truthy sc) && negb (nonzero sr) then
    negb (truthy ec || nonzero er || negb (truthy title))
  else if truthy sc && truthy ec then
    col_to_int ec >=? col_to_int sc
  else true.

(** *** The object *)

Definition set_a1 (self : A1) (a1 : string) : A1 * bool :=
  let d := extract_a1 a1 in
  if valid_dimensions d then
    let '(sheet, sc, sr, ec, er) := d in
    (mkA1 a1 sheet sc ec (col_to_int sc) (col_to_int ec) sr er, true)
  else (self, false).

(** [GoogleSheetsA1Notation(a1)] *)
Definition init (a1 : string) : A1 :=
  if truthy a1 then fst (set_a1 reset a1) else reset.

Definition str (self : A1) : string :=
  if truthy (_a1 self) then _a1 self else "<invalid>".

Definition eq (self : A1) (value : string) : bool :=
  String.eqb (_a1 self) value.

Definition valid (self : A1) : bool := truthy (_a1 self).

Definition from (self : A1) {T} (field : A1 -> T) (v : option T) : T :=
  match v with
  | None => field self
  | Some x => x
  end.

Definition update (self : A1) (sheet : option string)
    (start_col : option colarg) (start_row : option Z)
    (end_col : option colarg) (end_row : option Z) : result (A1 * bool) :=
  let s := from self _sheet sheet in
  sc <- match start_col with
        | None => Ok (_start_col self)
        | Some c => col_text c
        end ;;
  ec <- match end_col with
        | None => Ok (_end_col self)
        | Some c => col_text c
        end ;;
  let sr := from self _start_row start_row in
  let er := from self _end_row end_row in
  a1 <- generate_a1 s (ColStr sc) sr (ColStr ec) er ;;
  if truthy a1 then Ok (set_a1 self a1) else Ok (self, false).

(** The properties return the second operand of an [and]; only its truth
    value is ever used. *)
Definition rows_bounded (self : A1) : bool :=
  nonzero (_start_row self) && nonzero (_end_row self).

Definition cols_bounded (self : A1) : bool :=
  truthy (_start_col self) && truthy (_end_col self).

Definition bounded (self : A1) : bool :=
  rows_bounded self && cols_bounded self.

Definition __len__ (self : A1) : Z :=
  if bounded self then
    let total := _end_row self - _start_row self in
    total * ((_end_col_int self - _start_col_int self) + 1)
  else 0.

(** The argument of [contains] is an object or a string to parse. *)
Inductive a1arg : Type :=
| AObj (o : A1)
| AStr (s : string).

Definition contains (self : A1) (a1 : a1arg) : bool :=
  let a := match a1 with AObj o => o | AStr s => init s end in
  if valid a && truthy (_a1 self) then
    if String.eqb (_sheet a) (_sheet self) then
      if bounded self then
        if bounded a then
          (_start_col_int a >=? _start_col_int self)
          && (_end_col_int a <=? _end_col_int self)
          && (_start_row a >=? _start_row self)
          && (_end_row a <=? _end_row self)
        else false
      else if rows_bounded self then
        if rows_bounded a then
          (_start_row a >=? _start_row self) && (_end_row a <=? _end_row self)
        else false
      else if cols_bounded self then
        if cols_bounded a then
          (_start_col_int a >=? _start_col_int self)
          && (_end_col_int a <=? _end_col_int self)
        else false
      else true
    else false
  else false.

Definition append_rows (self : A1) (rows : Z) : result (A1 * bool) :=
  if rows_bounded self && nonzero rows then
    let new_end_row := _end_row self + rows in
    if new_end_row >? 0 then
      update self None None None None (Some new_end_row)
    else Ok (self, false)
  else Ok (self, true).

Definition append_cols (self : A1) (cols : Z) : result (A1 * bool) :=
  if cols_bounded self && nonzero cols then
    let ec := col_to_int (_end_col self) in
    let new_end_col := ec + cols in
    if (new_end_col >? 0) && (new_end_col <=? GoogleSheetsMaxColumns) then
      update self None None None (Some (ColInt new_end_col)) None
    else Ok (self, false)
  else Ok (self, true).

Definition reduce_rows (self : A1) (rows : Z) : result (A1 * bool) :=
  append_rows self (- rows).

Definition reduce_cols (self : A1) (cols : Z) : result (A1 * bool) :=
  append_cols self (- cols).

Definition reshape (self : A1) (rows cols : Z) : result (A1 * bool) :=
  if (rows >=? 0) && (cols >=? 0) then
    update self None (Some (ColInt 1)) (Some 1) (Some (ColInt cols)) (Some rows)
  else Ok (self, false).

(** ** What a pattern matches

    [den r u rest g g'] reads: [r] matches the text [u] when [rest] follows
    it, and turns the groups [g] into [g']. The matcher is checked against
    it below, in both directions. *)

Definition newline : string := String (ascii_of_N 10) "".

Definition within (n : nat) (hi : option nat) : Prop :=
  match hi with
  | Some h => (n <= h)%nat
  | None => True
  end.

Fixpoint den (r : regex) (u rest : string) (g g' : groups) : Prop :=
  match r with
  | Lit c => u = String c "" /\ g' = g
  | Rep p lo hi =>
      all p u = true /\ (lo <= String.length u)%nat
      /\ within (String.length u) hi /\ g' = g
  | Seq r1 r2 =>
      exists u1 u2 gm,
        u = u1 ++ u2 /\ den r1 u1 (u2 ++ rest) g gm /\ den r2 u2 rest gm g'
  | Alt r1 r2 => den r1 u rest g g' \/ den r2 u rest g g'
  | Opt r1 => den r1 u rest g g' \/ (u = "" /\ g' = g)
  | Grp name r1 => exists g1, den r1 u rest g g1 /\ g' = (name, u) :: g1
  | Eol => u = "" /\ g' = g /\ (rest = "" \/ rest = newline)
  end.

(** A column label, [A] to [ZZZ]. *)
Definition label (s : string) : bool :=
  all AZ s && (1 <=? String.length s)%nat && (String.length s <=? 3)%nat.

(** A title as the patterns take it: word characters, or a text without
    line break between two double or two single quotes. *)
Definition quoted (q : ascii) (t : string) : Prop :=
  exists b, t = String q (b ++ String q "") /\ b <> "" /\ all dot b = true.

Definition title (t : string) : Prop :=
  (t <> "" /\ all word t = true) \/ quoted dquote t \/ quoted "'" t.

(** The state of a valid object: the string it holds is not empty, and the
    other fields are the ones the constructor reads from that string. Only
    [reset] and [set_a1] assign the fields, so every valid object is such. *)
Definition Valid (r : A1) : Prop := valid r = true /\ init (_a1 r) = r.

(** A character that is no quote, no [!], no space and no line break. *)
Definition plain (c : ascii) : bool :=
  negb (Ascii.eqb c dquote) && negb (Ascii.eqb c "'") && negb (Ascii.eqb c "!")
  && negb (space c) && dot c.

(** Where a repetition of [p] cannot go on. *)
Definition stops (p : ascii -> bool) (v : string) : Prop :=
  match v with
  | EmptyString => True
  | String c _ => p c = false
  end.

(** The continuation [k] fails on [w] and on every tail of it. *)
Fixpoint fails_on_tails {A} (k : string -> option A) (w : string) : Prop :=
  k w = None
  /\ match w with
     | EmptyString => True
     | String _ w' => fails_on_tails k w'
     end.

(** A text of [[A-Z]{0,3}], and the number a run of digits stands for, 0
    when there is none. *)
Definition cols (c : string) : bool :=
  all AZ c && (String.length c <=? 3)%nat.

Definition row_value (d : string) : Z :=
  if truthy d then int_str d else 0.

(** The groups [_a1_re] leaves on [title!<sc><sr>:<ec><er>]: a row has its
    group when it has digits. *)
Definition row_group (name d : string) : groups :=
  if truthy d then [(name, d)] else [].

Definition full_groups (t sc dsr ec der : string) : groups :=
  (row_group "end_row" der
   ++ ("end_col", ec)
   :: row_group "start_row" dsr ++ [("start_col", sc); ("sheet", t)])%list.

(** The groups of a match of [_a1_re] hold titles, labels and digits. *)
Record shaped (g : groups) : Prop := {
  shaped_sheet : forall t, group g "sheet" = Some t -> title t;
  shaped_start_col : forall c, group g "start_col" = Some c ->
    all AZ c = true /\ (String.length c <= 3)%nat;
  shaped_end_col : forall c, group g "end_col" = Some c ->
    all AZ c = true /\ (String.length c <= 3)%nat;
  shaped_start_row : forall d, group g "start_row" = Some d -> all digit d = true;
  shaped_end_row : forall d, group g "end_row" = Some d -> all digit d = true
}.

(** The text [str] adds for a row, and the text of a full set of parts. *)
Definition row_text (row : Z) : string :=
  if nonzero row && (row >? 0) then str_int row else "".

Definition full_text (t sc : string) (sr : Z) (ec : string) (er : Z) : string :=
  t ++ String "!" (sc ++ str_int sr ++ String ":" (ec ++ row_text er)).

(** What [extract_a1] returns on any text. *)
Definition dims_ok (d : dims) : Prop :=
  let '(t, sc, sr, ec, er) := d in
  (sc = "" \/ label sc = true) /\ (ec = "" \/ label ec = true)
  /\ 0 <= sr /\ 0 <= er /\ truthy sc = nonzero sr
  /\ (truthy sc = true -> t = "" \/ title t).

(** Proofs by cases on a character, and the unfolding of [den]. *)
Ltac by_cases_on_char :=
  let c := fresh "c" in
  intros c; destruct c as [[] [] [] [] [] [] [] []];
  vm_compute; try reflexivity; try (intros; congruence).

Ltac break_den :=
  repeat match goal with
         | H : exists _, _ |- _ => destruct H
         | H : _ /\ _ |- _ => destruct H
         | H : _ \/ _ |- _ => destruct H
         end.

(** What holds of every object the class builds: it is blank or valid. *)
Definition Inv (r : A1) : Prop := r = reset \/ Valid r.

(** The column codec gives index [i] its own label. *)
Definition codec_ok (i : Z) : bool :=
  match int_to_col i with
  | Ok lbl => col_to_int lbl =? i
  | Raise _ => false
  end.

(** ** More of the class, and what the further properties are stated with *)

Definition no_Z (s : string) : bool :=
  all (fun c => negb (Ascii.eqb c "Z")) s.

Inductive a1args : Type :=
| One (v : a1arg)
| Many (vs : list a1arg).

Definition item_str (v : a1arg) : string :=
  match v with
  | AStr s => s
  | AObj o => str o
  end.

Definition item_a1 (v : a1arg) : A1 :=
  match v with
  | AStr s => init s
  | AObj o => o
  end.

Definition to_str_list (vals : a1args) : list string :=
  match vals with
  | One (AStr s) => [s]
  | Many vs => map item_str vs
  | One (AObj o) => [str o]
  end.

Definition to_a1_list (vals : a1args) : list A1 :=
  match vals with
  | One (AStr s) => [init s]
  | One (AObj o) => [o]
  | Many vs => map item_a1 vs
  end.

(** A title as a caller writes it: it starts with a word character and has
    no line break; blanks and marks may follow. *)
Definition raw_title (t : string) : Prop :=
  match t with
  | EmptyString => False
  | String c _ => word c = true /\ all dot t = true
  end.

(** The setter of the property [a1]: it raises when [set_a1] refuses. *)
Definition a1_setter (self : A1) (value : string) : result A1 :=
  let '(r, ok) := set_a1 self value in
  if ok then Ok r else Raise ValueError.

(** The setter of the property [sheet]: the outcome of [update] is dropped. *)
Definition sheet_setter (self : A1) (value : string) : result A1 :=
  r <- update self (Some value) None None None None ;; Ok (fst r).

(** The in-place operators: each returns [self] after the call, whatever
    the call reported. *)
Definition __iadd__ (self : A1) (rows : Z) : result A1 :=
  r <- append_rows self rows ;; Ok (fst r).

Definition __isub__ (self : A1) (rows : Z) : result A1 :=
  r <- reduce_rows self rows ;; Ok (fst r).

Definition __imul__ (self : A1) (cols : Z) : result A1 :=
  r <- append_cols self cols ;; Ok (fst r).

Definition __itruediv__ (self : A1) (cols : Z) : result A1 :=
  r <- reduce_cols self cols ;; Ok (fst r).

Definition num_rows (self : A1) : Z :=
  if rows_bounded self then _end_row self - _start_row self else 0.

Definition num_cols (self : A1) : Z :=
  if cols_bounded self then _end_col_int self - _start_col_int self else 0.

Definition dimensions (self : A1) : Z * Z * Z * Z :=
  (_start_col_int self, _start_row self, _end_col_int self, _end_row self).

(** The object that holds the text of a full set of parts. *)
Definition from_parts (t sc : string) (sr : Z) (ec : string) (er : Z) : A1 :=
  mkA1 (full_text t sc sr ec er) t sc ec (col_to_int sc) (col_to_int ec) sr er.

(** ** Strings *)

Lemma app_nil_r (s : string) : s ++ "" = s.
Proof. induction s as [|c s IH]; simpl; [reflexivity | now rewrite IH]. Qed.

Lemma app_assoc (a b c : string) : (a ++ b) ++ c = a ++ (b ++ c).
Proof. induction a as [|x a IH]; simpl; [reflexivity | now rewrite IH]. Qed.

Lemma length_app (a b : string) :
  String.length (a ++ b) = (String.length a + String.length b)%nat.
Proof. induction a as [|x a IH]; simpl; [reflexivity | now rewrite IH]. Qed.

Lemma take_app (a b : string) : take (String.length a) (a ++ b) = a.
Proof. induction a as [|x a IH]; simpl; [now destruct b | now rewrite IH]. Qed.

Lemma consumed_app (u rest : string) : consumed (u ++ rest) rest = u.
Proof.
  unfold consumed. rewrite length_app.
  replace (String.length u + String.length rest - String.length rest)%nat
    with (String.length u) by lia.
  apply take_app.
Qed.

Lemma consumed_all (s : string) : consumed s "" = s.
Proof. rewrite <- (app_nil_r s) at 1. apply consumed_app. Qed.

Lemma all_app (p : ascii -> bool) (a b : string) :
  all p (a ++ b) = all p a && all p b.
Proof.
  induction a as [|x a IH]; simpl; [reflexivity|].
  now rewrite IH, andb_assoc.
Qed.

Lemma truthy_true (s : string) : truthy s = true <-> s <> "".
Proof. destruct s; simpl; split; congruence. Qed.

Lemma truthy_false (s : string) : truthy s = false <-> s = "".
Proof. destruct s; simpl; split; congruence. Qed.

Lemma nonzero_true (n : Z) : nonzero n = true <-> n <> 0.
Proof. unfold nonzero. rewrite negb_true_iff, Z.eqb_neq. tauto. Qed.

Lemma nonzero_false (n : Z) : nonzero n = false <-> n = 0.
Proof. unfold nonzero. rewrite negb_false_iff, Z.eqb_eq. tauto. Qed.

(** ** The matcher against [den] *)

Section Sound.
Context {A : Type}.

Lemma rep_sound (p : ascii -> bool) (s : string) :
  forall lo hi (k : string -> option A) y,
    rep p lo hi s k = Some y ->
    exists u rest,
      s = u ++ rest /\ all p u = true /\ (lo <= String.length u)%nat
      /\ within (String.length u) hi /\ k rest = Some y.
Proof.
  induction s as [|c s IH]; intros lo hi k y H; simpl in H.
  - destruct (Nat.eqb_spec lo 0) as [->|]; [|discriminate].
    exists "", "". repeat split; auto. destruct hi; simpl; lia.
  - assert (Hstop : (if Nat.eqb lo 0 then k (String c s) else None) = Some y ->
              exists u rest, String c s = u ++ rest /\ all p u = true
                /\ (lo <= String.length u)%nat
                /\ within (String.length u) hi /\ k rest = Some y).
    { intros Hs. destruct (Nat.eqb_spec lo 0) as [->|]; [|discriminate].
      exists "", (String c s). repeat split; auto. destruct hi; simpl; lia. }
    destruct (p c) eqn:Hp; simpl in H; [|auto].
    destruct (more hi) eqn:Hm; simpl in H; [|auto].
    destruct (rep p (pred lo) (option_map pred hi) s k) as [y'|] eqn:Hr; [|auto].
    injection H as ->.
    destruct (IH _ _ _ _ Hr) as (u & rest & -> & Hu & Hlo & Hhi & Hk).
    exists (String c u), rest. simpl. rewrite Hp, Hu.
    repeat split; auto; [lia|].
    destruct hi as [[|h]|]; simpl in *; try discriminate; auto; lia.
Qed.

Lemma rep_complete (p : ascii -> bool) (u rest : string) :
  forall lo hi (k : string -> option A),
    all p u = true -> (lo <= String.length u)%nat ->
    within (String.length u) hi -> k rest <> None ->
    rep p lo hi (u ++ rest) k <> None.
Proof.
  induction u as [|c u IH]; intros lo hi k Hu Hlo Hhi Hk; simpl in *.
  - assert (lo = 0)%nat as -> by lia.
    destruct rest as [|c s]; simpl; auto.
    destruct (p c && more hi); auto.
    destruct (rep p _ _ s k); auto. discriminate.
  - apply andb_prop in Hu as [Hc Hu]. rewrite Hc.
    assert (more hi = true) as ->
      by (destruct hi as [[|h]|]; simpl in *; auto; lia).
    simpl.
    assert (Hr : rep p (pred lo) (option_map pred hi) (u ++ rest) k <> None).
    { apply IH; auto; [lia|]. destruct hi; simpl in *; auto; lia. }
    destruct (rep p _ _ (u ++ rest) k); [discriminate|tauto].
Qed.
End Sound.

Lemma run_sound {A} (r : regex) :
  forall s g (k : string -> groups -> option A) y,
    run r s g k = Some y ->
    exists u rest g',
      s = u ++ rest /\ den r u rest g g' /\ k rest g' = Some y.
Proof.
  induction r as [c|p lo hi|r1 IH1 r2 IH2|r1 IH1 r2 IH2|r1 IH1|name r1 IH1|];
    intros s g k y H; simpl in H.
  - destruct s as [|c' s]; [discriminate|].
    destruct (Ascii.eqb_spec c c') as [<-|]; [|discriminate].
    exists (String c ""), s, g. simpl. repeat split; auto.
  - apply rep_sound in H as (u & rest & -> & Hu & Hlo & Hhi & Hk).
    exists u, rest, g. simpl. repeat split; auto.
  - apply IH1 in H as (u1 & rest1 & gm & -> & H1 & H).
    apply IH2 in H as (u2 & rest & g' & -> & H2 & H).
    exists (u1 ++ u2), rest, g'. rewrite app_assoc. split; [reflexivity|].
    split; [|assumption]. simpl. exists u1, u2, gm. auto.
  - destruct (run r1 s g k) as [y'|] eqn:Hr.
    + injection H as ->. apply IH1 in Hr as (u & rest & g' & -> & H1 & H).
      exists u, rest, g'. simpl. repeat split; auto.
    + apply IH2 in H as (u & rest & g' & -> & H2 & H).
      exists u, rest, g'. simpl. repeat split; auto.
  - destruct (run r1 s g k) as [y'|] eqn:Hr.
    + injection H as ->. apply IH1 in Hr as (u & rest & g' & -> & H1 & H).
      exists u, rest, g'. simpl. repeat split; auto.
    + exists "", s, g. simpl. repeat split; auto.
  - apply IH1 in H as (u & rest & g1 & -> & H1 & H).
    rewrite consumed_app in H.
    exists u, rest, ((name, u) :: g1). simpl. split; [reflexivity|].
    split; [|assumption]. exists g1. auto.
  - destruct s as [|c [|c' s]]; try discriminate.
    + exists "", "", g. simpl. repeat split; auto.
    + destruct (code c =? 10) eqn:Hc; [|discriminate].
      exists "", (String c ""), g. simpl. repeat split; auto. right.
      unfold newline. f_equal.
      apply Z.eqb_eq in Hc. unfold code in Hc.
      rewrite <- (ascii_N_embedding c). f_equal. lia.
Qed.

Lemma run_complete {A} (r : regex) :
  forall u rest g g' (k : string -> groups -> option A),
    den r u rest g g' -> k rest g' <> None -> run r (u ++ rest) g k <> None.
Proof.
  induction r as [c|p lo hi|r1 IH1 r2 IH2|r1 IH1 r2 IH2|r1 IH1|name r1 IH1|];
    intros u rest g g' k H Hk; simpl in H.
  - destruct H as [-> ->]. simpl. rewrite Ascii.eqb_refl. exact Hk.
  - destruct H as (Hu & Hlo & Hhi & ->). simpl. now apply rep_complete.
  - destruct H as (u1 & u2 & gm & -> & H1 & H2). rewrite app_assoc. simpl.
    apply (IH1 _ _ _ _ _ H1). now apply (IH2 _ _ _ _ _ H2).
  - simpl. destruct H as [H|H].
    + specialize (IH1 _ _ _ _ _ H Hk). now destruct (run r1 (u ++ rest) g k).
    + specialize (IH2 _ _ _ _ _ H Hk).
      destruct (run r1 (u ++ rest) g k); [discriminate|assumption].
  - simpl. destruct H as [H|[-> ->]].
    + specialize (IH1 _ _ _ _ _ H Hk). now destruct (run r1 (u ++ rest) g k).
    + simpl. destruct (run r1 rest g k); [discriminate|assumption].
  - destruct H as (g1 & H & ->). simpl.
    apply (IH1 _ _ _ _ _ H). now rewrite consumed_app.
  - destruct H as (-> & -> & [->| ->]); simpl; assumption.
Qed.

(** [pattern.match(s)] succeeds exactly on the texts that start with
    something the pattern denotes. *)
Lemma matches_iff (r : regex) (s : string) :
  matches r s = true <-> exists u rest g, s = u ++ rest /\ den r u rest [] g.
Proof.
  unfold matches, re_match. split.
  - destruct (run r s [] _) as [y|] eqn:H; [|discriminate]. intros _.
    apply run_sound in H as (u & rest & g & -> & H & _). eauto.
  - intros (u & rest & g & -> & H).
    pose proof (run_complete r u rest [] g
      (fun rest0 g0 => Some (consumed (u ++ rest) rest0, g0)) H) as Hc.
    destruct (run r (u ++ rest) [] _); [reflexivity|].
    exfalso. apply Hc; [discriminate|reflexivity].
Qed.

(** ** Character classes *)

Lemma AZ_word : forall c, AZ c = true -> word c = true.
Proof. by_cases_on_char. Qed.

Lemma AZ_not_digit : forall c, AZ c = true -> digit c = false.
Proof. by_cases_on_char. Qed.

Lemma digit_not_AZ : forall c, digit c = true -> AZ c = false.
Proof. by_cases_on_char. Qed.

Lemma digit_word : forall c, digit c = true -> word c = true.
Proof. by_cases_on_char. Qed.

Lemma word_dot : forall c, word c = true -> dot c = true.
Proof. by_cases_on_char. Qed.

Lemma word_not_space : forall c, word c = true -> space c = false.
Proof. by_cases_on_char. Qed.

Lemma AZ_upper : forall c, AZ c = true -> upper_char c = String c "".
Proof. by_cases_on_char. Qed.

Lemma AZ_range : forall c, AZ c = true -> 1 <= ord c - 64 <= 26.
Proof.
  intros c H. unfold AZ, between in H. apply andb_prop in H as [H1 H2].
  unfold ord. lia.
Qed.

Lemma digit_range : forall c, digit c = true -> 0 <= code c - 48 <= 9.
Proof.
  intros c H. unfold digit, between in H. apply andb_prop in H as [H1 H2]. lia.
Qed.

Lemma word_plain : forall c, word c = true -> plain c = true.
Proof. by_cases_on_char. Qed.

Lemma all_impl (p q : ascii -> bool) (s : string) :
  (forall c, p c = true -> q c = true) -> all p s = true -> all q s = true.
Proof.
  intros Hpq. induction s as [|c s IH]; simpl; [reflexivity|].
  intros H. apply andb_prop in H as [Hc Hs]. now rewrite (Hpq _ Hc), IH.
Qed.

(** ** Decimal numerals *)

Lemma code_digit_char (d : Z) : 0 <= d < 10 -> code (digit_char d) = 48 + d.
Proof.
  intros H. unfold code, digit_char. rewrite N_ascii_embedding; lia.
Qed.

Lemma digit_digit_char (d : Z) : 0 <= d < 10 -> digit (digit_char d) = true.
Proof.
  intros H. unfold digit, between. rewrite code_digit_char by assumption.
  apply andb_true_intro. split; apply Z.leb_le; lia.
Qed.

Lemma int_acc_app (d e : string) :
  forall a, int_acc (d ++ e) a = int_acc e (int_acc d a).
Proof. induction d as [|c d IH]; intros a; simpl; [reflexivity | apply IH]. Qed.

Lemma digits_spec (fuel : nat) :
  forall n acc, 0 <= n -> (Z.to_nat n < fuel)%nat ->
    exists d m,
      digits fuel n acc = d ++ acc /\ d <> "" /\ all digit d = true
      /\ forall a, int_acc d a = a * m + n.
Proof.
  induction fuel as [|fuel IH]; intros n acc Hn Hf; [lia|]. simpl.
  pose proof (Z.mod_pos_bound n 10 ltac:(lia)) as Hm.
  pose proof (Z.div_mod n 10 ltac:(lia)) as Hd.
  destruct (Z.eqb_spec (n / 10) 0) as [Hq|Hq].
  - exists (String (digit_char (n mod 10)) ""), 10.
    split; [reflexivity|]. split; [discriminate|]. split.
    + cbn [all]. now rewrite digit_digit_char.
    + intros a. cbn [int_acc]. rewrite code_digit_char by assumption. lia.
  - assert (Hpos : 0 < n / 10)
      by (pose proof (Z.div_pos n 10 Hn ltac:(lia)); lia).
    destruct (IH (n / 10) (String (digit_char (n mod 10)) acc)) as
      (d & m & Hdig & Hne & Hall & Hval); [lia | lia |].
    exists (d ++ String (digit_char (n mod 10)) ""), (10 * m).
    rewrite Hdig, app_assoc. split; [reflexivity|]. split; [|split].
    + destruct d; [congruence | discriminate].
    + rewrite all_app, Hall. cbn [all]. now rewrite digit_digit_char.
    + intros a. rewrite int_acc_app. cbn [int_acc]. rewrite Hval.
      rewrite code_digit_char by assumption. lia.
Qed.

Lemma str_int_pos (n : Z) :
  0 < n ->
  str_int n <> "" /\ all digit (str_int n) = true /\ int_str (str_int n) = n.
Proof.
  intros Hn. unfold str_int. destruct (Z.ltb_spec n 0) as [|_]; [lia|].
  destruct (digits_spec (S (Z.to_nat n)) n "") as (d & m & -> & Hne & Hall & Hval);
    [lia | lia |].
  rewrite app_nil_r. repeat split; auto.
  unfold int_str. rewrite Hval. lia.
Qed.

Lemma int_acc_nonneg (d : string) :
  forall a, all digit d = true -> 0 <= a -> 0 <= int_acc d a.
Proof.
  induction d as [|c d IH]; intros a H Ha; cbn [all int_acc] in *; [assumption|].
  apply andb_prop in H as [Hc Hd]. apply IH; [assumption|].
  pose proof (digit_range c Hc). lia.
Qed.

(** ** Column labels *)

Lemma label_spec (s : string) :
  label s = true <->
  all AZ s = true /\ (1 <= String.length s)%nat /\ (String.length s <= 3)%nat.
Proof.
  unfold label. rewrite !andb_true_iff, !Nat.leb_le. tauto.
Qed.

Lemma label_truthy (s : string) : label s = true -> truthy s = true.
Proof. intros H. apply label_spec in H. destruct s; simpl in *; [lia|reflexivity]. Qed.

Lemma cols_spec (s : string) :
  cols s = true <-> all AZ s = true /\ (String.length s <= 3)%nat.
Proof. unfold cols. now rewrite andb_true_iff, Nat.leb_le. Qed.

Lemma label_cols (s : string) : label s = true -> cols s = true.
Proof. intros H. apply label_spec in H. apply cols_spec. tauto. Qed.

Lemma upper_AZ (s : string) : all AZ s = true -> upper s = s.
Proof.
  induction s as [|c s IH]; simpl; [reflexivity|]. intros H.
  apply andb_prop in H as [Hc Hs]. now rewrite (AZ_upper _ Hc), IH.
Qed.

Lemma label_matches (s : string) : label s = true -> matches _a1_col_re s = true.
Proof.
  intros H. apply label_spec in H as (Hall & Hlo & Hhi).
  apply matches_iff. exists s, "", []. split; [now rewrite app_nil_r|].
  simpl. exists s, "", []. rewrite app_nil_r. simpl. repeat split; auto.
Qed.

Lemma col_to_int_label (s : string) :
  label s = true -> 1 <= col_to_int s <= GoogleSheetsMaxColumns.
Proof.
  intros H. unfold col_to_int, GoogleSheetsMaxColumns.
  pose proof (label_matches s H) as Hm.
  apply label_spec in H as (Hall & Hlo & Hhi).
  rewrite (upper_AZ s Hall), Hm.
  destruct s as [|a [|b [|c [|d s]]]]; simpl in Hlo, Hhi; try lia;
    simpl in Hall;
    repeat match goal with
           | H : _ && _ = true |- _ => apply andb_prop in H as [? ?]
           end;
    repeat match goal with
           | H : AZ _ = true |- _ => apply AZ_range in H
           end;
    cbn [reversed col_sum]; change (0 + 1) with 1; change (1 + 1) with 2;
    change (26 ^ 0) with 1; change (26 ^ 1) with 26; change (26 ^ 2) with 676;
    lia.
Qed.

Lemma col_to_int_empty : col_to_int "" = 0.
Proof. reflexivity. Qed.

(** ** Running the matcher on a text of known shape *)

Section Steps.
Context {A : Type}.
Implicit Types (k : string -> groups -> option A) (g : groups).

Lemma rep_longest (p : ascii -> bool) (u : string) :
  forall lo hi v (k : string -> option A) y,
    all p u = true -> (lo <= String.length u)%nat ->
    within (String.length u) hi ->
    stops p v \/ hi = Some (String.length u) ->
    k v = Some y -> rep p lo hi (u ++ v) k = Some y.
Proof.
  induction u as [|c u IH]; intros lo hi v k y Hu Hlo Hhi Hstop Hk.
  - simpl in Hlo. assert (lo = 0)%nat as -> by lia. simpl append.
    destruct v as [|c v]; simpl; [assumption|].
    destruct Hstop as [Hc| ->]; [simpl in Hc; now rewrite Hc|].
    simpl. now rewrite andb_false_r.
  - simpl in Hu. apply andb_prop in Hu as [Hc Hu]. simpl. rewrite Hc.
    assert (more hi = true) as ->
      by (destruct hi as [[|h]|]; simpl in *; auto; lia).
    simpl. rewrite (IH (pred lo) (option_map pred hi) v k y); auto.
    + simpl in Hlo. lia.
    + destruct hi; simpl in *; auto; lia.
    + destruct Hstop as [Hs| ->]; [now left|right]. reflexivity.
Qed.

Lemma rep_none (p : ascii -> bool) (w : string) :
  forall lo hi (k : string -> option A),
    fails_on_tails k w -> rep p lo hi w k = None.
Proof.
  induction w as [|c w IH]; intros lo hi k [Hk Hw]; simpl.
  - rewrite Hk. now destruct (Nat.eqb lo 0).
  - rewrite (IH _ _ _ Hw), Hk.
    now destruct (p c && more hi), (Nat.eqb lo 0).
Qed.

Lemma rep_backtrack (p : ascii -> bool) (u : string) :
  forall lo c v (k : string -> option A) y,
    all p u = true -> (lo <= String.length u)%nat ->
    fails_on_tails k v -> k (String c v) = Some y ->
    rep p lo None (u ++ String c v) k = Some y.
Proof.
  induction u as [|x u IH]; intros lo c v k y Hu Hlo Hv Hk.
  - simpl in Hlo. assert (lo = 0)%nat as -> by lia. simpl.
    rewrite (rep_none p v _ _ k Hv), Hk. now destruct (p c && true).
  - simpl in Hu. apply andb_prop in Hu as [Hx Hu]. simpl. rewrite Hx. simpl.
    rewrite (IH (pred lo) c v k y); auto. simpl in Hlo. lia.
Qed.

Lemma run_seq (r1 r2 : regex) s g k :
  run (Seq r1 r2) s g k = run r1 s g (fun s1 g1 => run r2 s1 g1 k).
Proof. reflexivity. Qed.

Lemma run_lit (c : ascii) s g k : run (Lit c) (String c s) g k = k s g.
Proof. simpl. now rewrite Ascii.eqb_refl. Qed.

Lemma run_lit_other (c c' : ascii) s g k :
  c <> c' -> run (Lit c) (String c' s) g k = None.
Proof. intros H. simpl. now destruct (Ascii.eqb_spec c c'). Qed.

Lemma run_opt_take (r : regex) s g k y :
  run r s g k = Some y -> run (Opt r) s g k = Some y.
Proof. intros H. simpl. now rewrite H. Qed.

Lemma run_opt_skip (r : regex) s g k :
  run r s g k = None -> run (Opt r) s g k = k s g.
Proof. intros H. simpl. now rewrite H. Qed.

Lemma run_alt_left (r1 r2 : regex) s g k y :
  run r1 s g k = Some y -> run (Alt r1 r2) s g k = Some y.
Proof. intros H. simpl. now rewrite H. Qed.

Lemma run_alt_right (r1 r2 : regex) s g k :
  run r1 s g k = None -> run (Alt r1 r2) s g k = run r2 s g k.
Proof. intros H. simpl. now rewrite H. Qed.

Lemma run_rep_longest (p : ascii -> bool) lo hi u v g k y :
  all p u = true -> (lo <= String.length u)%nat ->
  within (String.length u) hi ->
  stops p v \/ hi = Some (String.length u) ->
  k v g = Some y -> run (Rep p lo hi) (u ++ v) g k = Some y.
Proof. intros. simpl. now apply rep_longest. Qed.

Lemma run_grp_rep (name : string) (p : ascii -> bool) lo hi u v g k y :
  all p u = true -> (lo <= String.length u)%nat ->
  within (String.length u) hi ->
  stops p v \/ hi = Some (String.length u) ->
  k v ((name, u) :: g) = Some y ->
  run (Grp name (Rep p lo hi)) (u ++ v) g k = Some y.
Proof.
  intros. simpl. apply rep_longest; auto. now rewrite consumed_app.
Qed.

Lemma rep_first_fails (p : ascii -> bool) lo hi c s (k : string -> option A) :
  p c = false -> (1 <= lo)%nat -> rep p lo hi (String c s) k = None.
Proof.
  intros Hc Hlo. simpl. rewrite Hc. simpl.
  destruct (Nat.eqb_spec lo 0); [lia|reflexivity].
Qed.

Lemma lit_fails_on_tails (q : ascii) g k (w : string) :
  all (fun c => negb (Ascii.eqb q c)) w = true ->
  fails_on_tails (fun rest => run (Lit q) rest g k) w.
Proof.
  induction w as [|c w IH]; simpl; [auto|]. intros H.
  apply andb_prop in H as [Hc Hw]. apply negb_true_iff in Hc.
  rewrite Hc. auto.
Qed.
End Steps.

(** ** [_a1_re] on a text that [generate_a1] writes *)

Lemma plain_not_quote (q : ascii) :
  q = dquote \/ q = "'"%char ->
  forall c, plain c = true -> negb (Ascii.eqb q c) = true.
Proof. intros [-> | ->]; by_cases_on_char. Qed.

Lemma title_first (t : string) :
  title t -> exists c t', t = String c t' /\ space c = false.
Proof.
  intros [[Hne Hw] | [(b & -> & _) | (b & -> & _)]].
  - destruct t as [|c t]; [congruence|]. simpl in Hw.
    apply andb_prop in Hw as [Hc _]. exists c, t.
    split; [reflexivity | now apply word_not_space].
  - eexists _, _. split; reflexivity.
  - eexists _, _. split; reflexivity.
Qed.

Lemma title_truthy (t : string) : title t -> truthy t = true.
Proof. intros H. now destruct (title_first t H) as (c & t' & -> & _). Qed.

Lemma nonempty_length (s : string) : s <> "" -> (1 <= String.length s)%nat.
Proof. destruct s; simpl; [congruence | lia]. Qed.

Lemma digits_stop_AZ (d : string) : all digit d = true -> stops AZ d.
Proof.
  destruct d as [|c d]; simpl; [trivial|]. intros H.
  apply andb_prop in H as [Hc _]. now apply digit_not_AZ.
Qed.

Section Generated.
Context {A : Type}.
Implicit Types (k : string -> groups -> option A) (g : groups).

Lemma run_quoted (q : ascii) (b R : string) g k y :
  q = dquote \/ q = "'"%char ->
  b <> "" -> all dot b = true -> all plain R = true ->
  k (String "!" R) g = Some y ->
  run (Lit q ;; Rep dot 1 None ;; Lit q)
      (String q (b ++ String q (String "!" R))) g k = Some y.
Proof.
  intros Hq Hb Hd HR Hk.
  rewrite run_seq, run_lit, run_seq. cbn [run].
  apply rep_backtrack; auto using nonempty_length.
  - apply lit_fails_on_tails. cbn [all].
    rewrite (all_impl plain _ R (plain_not_quote q Hq) HR).
    now destruct Hq as [-> | ->].
  - now rewrite Ascii.eqb_refl.
Qed.

Lemma run_title (t R : string) g k y :
  title t -> all plain R = true ->
  k (String "!" R) g = Some y ->
  run title_re (t ++ String "!" R) g k = Some y.
Proof.
  intros [[Hne Hw] | [(b & -> & Hb & Hd) | (b & -> & Hb & Hd)]] HR Hk;
    unfold title_re.
  - apply run_alt_left. apply run_rep_longest; auto using nonempty_length.
    + exact I.
    + now left.
  - cbn [append]. rewrite app_assoc. cbn [append].
    rewrite run_alt_right by (now apply rep_first_fails).
    apply run_alt_left. apply run_quoted; auto.
  - cbn [append]. rewrite app_assoc. cbn [append].
    rewrite run_alt_right by (now apply rep_first_fails).
    rewrite run_alt_right
      by (rewrite run_seq; now apply run_lit_other).
    apply run_quoted; auto.
Qed.

Lemma run_sheet_part (t R : string) g k y :
  title t -> all plain R = true ->
  k R (("sheet", t) :: g) = Some y ->
  run sheet_part (t ++ String "!" R) g k = Some y.
Proof.
  intros Ht HR Hk. unfold sheet_part. rewrite run_seq. cbn [run].
  apply run_title; auto. cbv beta iota.
  now rewrite consumed_app, Ascii.eqb_refl.
Qed.

Lemma run_row (name d v : string) g k y :
  all digit d = true -> stops digit v ->
  k v (row_group name d ++ g)%list = Some y ->
  run (Opt (Grp name (Rep digit 1 None))) (d ++ v) g k = Some y.
Proof.
  intros Hd Hv Hk. destruct d as [|c d].
  - rewrite run_opt_skip; [assumption|]. cbn [append run].
    destruct v as [|c v]; [reflexivity|]. now apply rep_first_fails.
  - apply run_opt_take. apply run_grp_rep; auto.
    + simpl. lia.
    + exact I.
Qed.

Lemma run_bounds_part (sc dsr ec der : string) g k y :
  cols sc = true -> all digit dsr = true ->
  cols ec = true -> all digit der = true ->
  k "" (row_group "end_row" der
        ++ ("end_col", ec)
        :: row_group "start_row" dsr ++ ("start_col", sc) :: g)%list
    = Some y ->
  run bounds_part (sc ++ dsr ++ String ":" (ec ++ der)) g k = Some y.
Proof.
  intros Hsc Hsr Hec Her Hk.
  apply cols_spec in Hsc as (Hsc & Hsc3). apply cols_spec in Hec as (Hec & Hec3).
  unfold bounds_part, col_re. rewrite run_seq. apply run_opt_take.
  apply run_grp_rep; auto; [lia | |].
  { left. destruct dsr as [|c dsr]; [reflexivity|]. simpl in Hsr |- *.
    apply andb_prop in Hsr as [Hc _]. now apply digit_not_AZ. }
  rewrite run_seq. apply run_row; [assumption | reflexivity |].
  rewrite run_seq, run_lit, run_seq. apply run_opt_take.
  apply run_grp_rep; auto; [lia | left; now apply digits_stop_AZ |].
  rewrite <- (app_nil_r der). apply run_row; [assumption | exact I |].
  exact Hk.
Qed.
End Generated.

Lemma plain_bounds (sc dsr ec der : string) :
  cols sc = true -> all digit dsr = true ->
  cols ec = true -> all digit der = true ->
  all plain (sc ++ dsr ++ String ":" (ec ++ der)) = true.
Proof.
  intros Hsc Hsr Hec Her.
  apply cols_spec in Hsc as (Hsc & _). apply cols_spec in Hec as (Hec & _).
  assert (HAZ : forall c, AZ c = true -> plain c = true)
    by (intros c Hc; now apply word_plain, AZ_word).
  assert (Hdg : forall c, digit c = true -> plain c = true)
    by (intros c Hc; now apply word_plain, digit_word).
  rewrite !all_app. cbn [all]. rewrite !all_app.
  rewrite (all_impl _ _ _ HAZ Hsc), (all_impl _ _ _ HAZ Hec).
  rewrite (all_impl _ _ _ Hdg Hsr), (all_impl _ _ _ Hdg Her).
  reflexivity.
Qed.

Lemma a1_re_generated (t sc dsr ec der : string) :
  title t -> cols sc = true -> all digit dsr = true ->
  cols ec = true -> all digit der = true ->
  let G := t ++ String "!" (sc ++ dsr ++ String ":" (ec ++ der)) in
  re_match _a1_re G = Some (G, full_groups t sc dsr ec der).
Proof.
  intros Ht Hsc Hsr Hec Her G. unfold re_match, _a1_re.
  rewrite run_seq. change G with ("" ++ G).
  apply run_rep_longest; [reflexivity | simpl; lia | exact I | |].
  { left. subst G. destruct (title_first t Ht) as (c & t' & -> & Hc). exact Hc. }
  rewrite run_seq. apply run_opt_take. subst G.
  apply run_sheet_part; auto using plain_bounds.
  rewrite run_seq. apply run_opt_take.
  apply run_bounds_part; auto.
  cbn [run rep Nat.eqb]. now rewrite consumed_all.
Qed.

(** The parts [extract_a1] reads from the groups of a match. *)
Lemma extract_matched (s w : string) (g : groups) :
  re_match _a1_re s = Some (w, g) ->
  extract_a1 s =
  (grp g "sheet",
   if truthy (grp g "start_col") then grp g "start_col"
   else if nonzero (grp_int g "start_row") then "A" else "",
   if nonzero (grp_int g "start_row") then grp_int g "start_row"
   else if truthy (grp g "start_col") then 1 else 0,
   grp g "end_col", grp_int g "end_row").
Proof.
  intros H. unfold extract_a1. rewrite H.
  destruct (nonzero (grp_int g "start_row")) eqn:Hsr;
    destruct (truthy (grp g "start_col")) eqn:Hsc; cbn [andb negb];
    try reflexivity.
  apply nonzero_false in Hsr. apply truthy_false in Hsc. now rewrite Hsr, Hsc.
Qed.

Lemma full_groups_grp (t sc dsr ec der : string) :
  let g := full_groups t sc dsr ec der in
  grp g "sheet" = t /\ grp g "start_col" = sc /\ grp g "end_col" = ec
  /\ grp_int g "start_row" = row_value dsr
  /\ grp_int g "end_row" = row_value der.
Proof.
  unfold full_groups, row_group, grp_int, grp, row_value.
  destruct (truthy der) eqn:Her; destruct (truthy dsr) eqn:Hsr;
    cbn; rewrite ?Her, ?Hsr; repeat split; reflexivity.
Qed.

(** The parts [extract_a1] reads from [title!<sc><sr>:<ec><er>]. *)
Lemma extract_generated (t sc dsr ec der : string) :
  title t -> cols sc = true -> all digit dsr = true ->
  cols ec = true -> all digit der = true ->
  extract_a1 (t ++ String "!" (sc ++ dsr ++ String ":" (ec ++ der))) =
  (t,
   if truthy sc then sc else if nonzero (row_value dsr) then "A" else "",
   if nonzero (row_value dsr) then row_value dsr
   else if truthy sc then 1 else 0,
   ec, row_value der).
Proof.
  intros Ht Hsc Hsr Hec Her.
  rewrite (extract_matched _ _ _ (a1_re_generated t sc dsr ec der Ht Hsc Hsr Hec Her)).
  destruct (full_groups_grp t sc dsr ec der) as (-> & -> & -> & -> & ->).
  reflexivity.
Qed.

(** ** What the groups of a match of [_a1_re] hold *)

Lemma length_nonempty (s : string) : (1 <= String.length s)%nat -> s <> "".
Proof. destruct s; simpl; [lia | discriminate]. Qed.

Lemma den_quoted (q : ascii) (u rest : string) (g g' : groups) :
  den (Lit q ;; Rep dot 1 None ;; Lit q) u rest g g' -> quoted q u /\ g' = g.
Proof.
  cbn [den].
  intros (u1 & u2 & g1 & -> & (-> & ->) & u3 & u4 & g2 & -> & H & -> & ->).
  destruct H as (Hd & Hl & _ & ->). split; [|reflexivity].
  exists u3. auto using length_nonempty.
Qed.

Lemma den_title (u rest : string) (g g' : groups) :
  den title_re u rest g g' -> title u /\ g' = g.
Proof.
  unfold title_re. cbn [den]. intros [(Hw & Hl & _ & ->) | [H | H]].
  - split; [left|reflexivity]. auto using length_nonempty.
  - apply (den_quoted dquote u rest) in H as [H ->].
    split; [right; now left | reflexivity].
  - apply (den_quoted "'" u rest) in H as [H ->].
    split; [right; now right | reflexivity].
Qed.

Lemma den_sheet_part (u rest : string) (g' : groups) :
  den (Opt sheet_part) u rest [] g' ->
  g' = [] \/ exists t, title t /\ g' = [("sheet", t)].
Proof.
  unfold sheet_part. cbn [den]. intros H. break_den; subst; auto.
  match goal with H : den title_re _ _ _ _ |- _ =>
    apply den_title in H as [Ht ->] end.
  right. eauto.
Qed.

Lemma den_a1_shaped (u rest : string) (g : groups) :
  den _a1_re u rest [] g -> shaped g.
Proof.
  unfold _a1_re. cbn [den]. intros H.
  destruct H as (u1 & u2 & g1 & _ & (_ & _ & _ & ->) & H).
  destruct H as (u3 & u4 & g2 & _ & Hs & H).
  apply den_sheet_part in Hs.
  destruct H as (u5 & u6 & g3 & _ & Hb & H).
  destruct H as (u7 & u8 & g4 & _ & (_ & _ & _ & ->) & (_ & -> & _)).
  unfold bounds_part, col_re in Hb. cbn [den within] in Hb.
  break_den; subst; constructor; intros v Hv; simpl in Hv;
    try discriminate; try (injection Hv as <-); auto.
Qed.

Lemma a1_re_shaped (s w : string) (g : groups) :
  re_match _a1_re s = Some (w, g) -> shaped g.
Proof.
  unfold re_match. intros H.
  apply run_sound in H as (u & rest & g' & -> & H & E).
  injection E as _ <-. now apply den_a1_shaped in H.
Qed.

(** [group(0)] of a match of the title-only pattern is not empty. *)
Lemma sheet_only_whole (s w : string) (g : groups) :
  re_match _a1_sheet_only_re s = Some (w, g) -> w <> "".
Proof.
  unfold re_match. intros H.
  apply run_sound in H as (u & rest & g' & -> & H & E).
  rewrite consumed_app in E. injection E as <- _.
  unfold _a1_sheet_only_re, _a1_sheet_re in H. cbn [den] in H.
  destruct H as (u1 & u2 & g1 & -> & H & (-> & _)).
  destruct H as (u3 & u4 & g2 & -> & _ & H).
  apply den_title in H as [H _]. apply title_truthy in H.
  rewrite app_nil_r. destruct u3; simpl; [now apply truthy_true|discriminate].
Qed.

(** ** [generate_a1] and [extract_a1] on a full set of parts *)

Lemma with_row_text (a1 : string) (row : Z) : with_row a1 row = a1 ++ row_text row.
Proof.
  unfold with_row, row_text.
  destruct (nonzero row && (row >? 0)); [reflexivity | now rewrite app_nil_r].
Qed.

Lemma row_text_digits (row : Z) : all digit (row_text row) = true.
Proof.
  unfold row_text. destruct (nonzero row) eqn:Hn; simpl; [|reflexivity].
  destruct (Z.gtb_spec row 0) as [H|H]; [|reflexivity].
  now apply str_int_pos.
Qed.

Lemma row_text_pos (row : Z) : 0 < row -> row_text row = str_int row.
Proof.
  intros H. unfold row_text.
  destruct (Z.gtb_spec row 0); [|lia].
  now replace (nonzero row) with true by (symmetry; apply nonzero_true; lia).
Qed.

Lemma row_text_value (row : Z) :
  0 <= row ->
  (if truthy (row_text row) then int_str (row_text row) else 0) = row.
Proof.
  intros H. destruct (Z.eq_dec row 0) as [->|Hz]; [reflexivity|].
  rewrite row_text_pos by lia.
  destruct (str_int_pos row ltac:(lia)) as (Hne & _ & ->).
  now apply truthy_true in Hne as ->.
Qed.

Lemma title_den (t rest : string) (g : groups) :
  title t -> den title_re t rest g g.
Proof.
  unfold title_re. cbn [den].
  intros [[Hne Hw] | [(b & -> & Hb & Hd) | (b & -> & Hb & Hd)]].
  - left. repeat split; auto using nonempty_length.
  - right; left. exists (String dquote ""), (b ++ String dquote ""), g.
    repeat split.
    exists b, (String dquote ""), g. repeat split; auto using nonempty_length.
  - right; right. exists "'", (b ++ "'"), g. repeat split.
    exists b, "'", g. repeat split; auto using nonempty_length.
Qed.

Lemma title_matches (t : string) : title t -> matches _a1_sheet_re t = true.
Proof.
  intros H. apply matches_iff. exists t, "", []. split; [now rewrite app_nil_r|].
  unfold _a1_sheet_re. cbn [den]. exists "", t, [].
  split; [reflexivity|]. split; [|now apply title_den].
  simpl. repeat split. lia.
Qed.

Lemma quoted_title_title (t : string) :
  title t -> exists t', quoted_title t = Ok t' /\ title t'.
Proof.
  intros Ht. pose proof Ht as [[Hne Hw] | [(b & -> & Hb) | (b & -> & Hb)]].
  - destruct t as [|c t]; [congruence|]. unfold quoted_title.
    destruct (Ascii.eqb c "'" || Ascii.eqb c dquote); [eauto|].
    destruct (matches bare_title_re (String c t)); [eauto|].
    eexists. split; [reflexivity|]. right; left.
    exists (String c t). repeat split; [discriminate|].
    now apply (all_impl word dot _ word_dot).
  - eexists. split; [reflexivity | assumption].
  - eexists. split; [reflexivity | assumption].
Qed.

Lemma generate_full (t sc : string) (sr : Z) (ec : string) (er : Z) :
  title t -> label sc = true -> 0 < sr -> label ec = true ->
  exists t',
    title t'
    /\ generate_a1 t (ColStr sc) sr (ColStr ec) er = Ok (full_text t' sc sr ec er).
Proof.
  intros Ht Hsc Hsr Hec. unfold generate_a1.
  rewrite (title_matches t Ht).
  destruct (quoted_title_title t Ht) as (t' & -> & Ht'). cbn [bind].
  exists t'. split; [assumption|].
  cbn [col_truthy col_text]. rewrite (label_truthy sc Hsc), (label_truthy ec Hec).
  cbn [bind]. rewrite (label_matches sc Hsc), (label_matches ec Hec).
  unfold with_bang. rewrite (title_truthy t' Ht'). rewrite !with_row_text.
  rewrite (row_text_pos sr Hsr). unfold full_text.
  rewrite !app_assoc. reflexivity.
Qed.

Lemma full_text_truthy (t sc : string) (sr : Z) (ec : string) (er : Z) :
  title t -> truthy (full_text t sc sr ec er) = true.
Proof.
  intros Ht. unfold full_text.
  now destruct (title_first t Ht) as (c & t' & -> & _).
Qed.

Lemma extract_full (t sc : string) (sr : Z) (ec : string) (er : Z) :
  title t -> label sc = true -> 0 < sr -> label ec = true -> 0 <= er ->
  extract_a1 (full_text t sc sr ec er) = (t, sc, sr, ec, er).
Proof.
  intros Ht Hsc Hsr Hec Her. unfold full_text.
  destruct (str_int_pos sr Hsr) as (Hne & Hdig & Hval).
  rewrite extract_generated; auto using label_cols, row_text_digits.
  assert (row_value (str_int sr) = sr) as ->
    by (unfold row_value; now apply truthy_true in Hne as ->).
  assert (row_value (row_text er) = er) as -> by (now apply row_text_value).
  rewrite (label_truthy sc Hsc).
  now replace (nonzero sr) with true by (symmetry; apply nonzero_true; lia).
Qed.

(** ** What [extract_a1] returns, whatever the text *)

Lemma AZ_label_or_empty (c : string) :
  all AZ c = true /\ (String.length c <= 3)%nat -> c = "" \/ label c = true.
Proof.
  intros [Ha Hl]. destruct c as [|x c]; [now left|right].
  apply label_spec. simpl in *. repeat split; auto. lia.
Qed.

Lemma shaped_col (g : groups) (name : string) :
  shaped g -> name = "start_col" \/ name = "end_col" ->
  grp g name = "" \/ label (grp g name) = true.
Proof.
  intros Hg Hn. unfold grp. destruct (group g name) as [c|] eqn:E; [|now left].
  apply AZ_label_or_empty.
  destruct Hn as [-> | ->];
    [apply (shaped_start_col g Hg) | apply (shaped_end_col g Hg)]; assumption.
Qed.

Lemma shaped_row (g : groups) (name : string) :
  shaped g -> name = "start_row" \/ name = "end_row" -> 0 <= grp_int g name.
Proof.
  intros Hg Hn. unfold grp_int, grp.
  destruct (group g name) as [d|] eqn:E; [|simpl; lia].
  destruct (truthy d); [|lia]. apply int_acc_nonneg; [|lia].
  destruct Hn as [-> | ->];
    [apply (shaped_start_row g Hg) | apply (shaped_end_row g Hg)]; assumption.
Qed.

Lemma shaped_title (g : groups) :
  shaped g -> grp g "sheet" = "" \/ title (grp g "sheet").
Proof.
  intros Hg. unfold grp. destruct (group g "sheet") as [t|] eqn:E; [|now left].
  right. now apply (shaped_sheet g Hg).
Qed.

Lemma extract_dims_ok (s : string) : dims_ok (extract_a1 s).
Proof.
  unfold extract_a1.
  destruct (re_match _a1_re s) as [[w g]|] eqn:Hm.
  - apply a1_re_shaped in Hm.
    pose proof (shaped_col g "start_col" Hm (or_introl eq_refl)) as Hsc.
    pose proof (shaped_col g "end_col" Hm (or_intror eq_refl)) as Hec.
    pose proof (shaped_row g "start_row" Hm (or_introl eq_refl)) as Hsr.
    pose proof (shaped_row g "end_row" Hm (or_intror eq_refl)) as Her.
    pose proof (shaped_title g Hm) as Ht.
    destruct (nonzero (grp_int g "start_row")) eqn:Hnz;
      destruct (truthy (grp g "start_col")) eqn:Htr; cbn [andb negb];
      unfold dims_ok; rewrite ?Hnz, ?Htr; repeat split; auto; try lia.
  - destruct (re_match _a1_sheet_only_re s) as [[w g]|];
      unfold dims_ok; repeat split; auto; try lia; discriminate.
Qed.

Lemma col_to_int_nonneg (s : string) : s = "" \/ label s = true -> 0 <= col_to_int s.
Proof.
  intros [-> | H]; [now rewrite col_to_int_empty|].
  pose proof (col_to_int_label s H). lia.
Qed.

(** ** The state of a valid object *)

Lemma set_a1_state (self : A1) (s : string) :
  set_a1 self s =
  if valid_dimensions (extract_a1 s) then
    let '(t, sc, sr, ec, er) := extract_a1 s in
    (mkA1 s t sc ec (col_to_int sc) (col_to_int ec) sr er, true)
  else (self, false).
Proof. reflexivity. Qed.

Lemma Valid_unfold (r : A1) :
  Valid r ->
  valid_dimensions (extract_a1 (_a1 r)) = true
  /\ extract_a1 (_a1 r) = (_sheet r, _start_col r, _start_row r, _end_col r, _end_row r)
  /\ _start_col_int r = col_to_int (_start_col r)
  /\ _end_col_int r = col_to_int (_end_col r).
Proof.
  intros [Hv Hi]. unfold valid in Hv. unfold init in Hi. rewrite Hv in Hi.
  rewrite set_a1_state in Hi.
  destruct (valid_dimensions (extract_a1 (_a1 r))) eqn:Hd.
  - destruct (extract_a1 (_a1 r)) as [[[[t sc] sr] ec] er].
    cbn [fst] in Hi. rewrite <- Hi. cbn. auto.
  - cbn [fst] in Hi. rewrite <- Hi in Hv. discriminate.
Qed.

Lemma Valid_intro (s t sc ec : string) (sr er : Z) :
  truthy s = true -> extract_a1 s = (t, sc, sr, ec, er) ->
  valid_dimensions (t, sc, sr, ec, er) = true ->
  Valid (mkA1 s t sc ec (col_to_int sc) (col_to_int ec) sr er).
Proof.
  intros Hs He Hd. split; [exact Hs|].
  cbn [_a1]. unfold init. rewrite Hs, set_a1_state, He, Hd. reflexivity.
Qed.

Lemma Valid_dims_ok (r : A1) :
  Valid r ->
  dims_ok (_sheet r, _start_col r, _start_row r, _end_col r, _end_row r).
Proof.
  intros H. apply Valid_unfold in H as (_ & <- & _). apply extract_dims_ok.
Qed.

Lemma Valid_col_order (r : A1) :
  Valid r -> cols_bounded r = true ->
  (col_to_int (_end_col r) >=? col_to_int (_start_col r)) = true.
Proof.
  intros H Hc. apply Valid_unfold in H as (Hd & He & _). rewrite He in Hd.
  unfold cols_bounded in Hc. apply andb_prop in Hc as [Hs Hen].
  unfold valid_dimensions in Hd. rewrite Hs, Hen in Hd. exact Hd.
Qed.

(** ** The labels [int_to_col] writes *)

Lemma chr_letter (d : Z) :
  1 <= d <= 26 ->
  exists c, chr (d + 64) = Ok (String c "") /\ AZ c = true.
Proof.
  intros H. unfold chr.
  replace ((0 <=? d + 64) && (d + 64 <? 256)) with true
    by (symmetry; apply andb_true_intro; split;
        [apply Z.leb_le | apply Z.ltb_lt]; lia).
  eexists. split; [reflexivity|].
  unfold AZ, between, code. rewrite N_ascii_embedding by lia.
  apply andb_true_intro. split; apply Z.leb_le; lia.
Qed.

Lemma int_to_col_step_letters (p : Z) (col col' : string) (i i' : Z) :
  0 <= p -> 0 <= i -> all AZ col = true ->
  int_to_col_step p (col, i) = Ok (col', i') ->
  0 <= i' /\ all AZ col' = true
  /\ (String.length col' <= String.length col + 1)%nat.
Proof.
  intros Hp Hi Hc. unfold int_to_col_step.
  assert (Hpow : 0 < 26 ^ p) by (apply Z.pow_pos_nonneg; lia).
  pose proof (Z.div_pos i (26 ^ p) Hi Hpow) as Hd.
  pose proof (Z.mod_pos_bound i (26 ^ p) Hpow) as Hm.
  destruct (nonzero (i / 26 ^ p)) eqn:Hnz.
  - apply nonzero_true in Hnz.
    destruct (Z.gtb_spec (i / 26 ^ p) 26) as [Hgt|Hle].
    + intros E. injection E as <- <-. rewrite all_app, Hc, length_app.
      simpl. repeat split; [nia | lia].
    + destruct (chr_letter (i / 26 ^ p) ltac:(lia)) as (c & -> & Hl).
      cbn [bind]. intros E. injection E as <- <-.
      rewrite all_app, Hc, length_app. simpl. rewrite Hl.
      repeat split; lia.
  - intros E. injection E as <- <-. repeat split; [lia | assumption | lia].
Qed.

Lemma int_to_col_letters (i : Z) (lbl : string) :
  0 <= i -> int_to_col i = Ok lbl ->
  all AZ lbl = true /\ (String.length lbl <= 3)%nat.
Proof.
  intros Hi. unfold int_to_col. destruct (i <=? GoogleSheetsMaxColumns).
  - destruct (int_to_col_step 2 ("", i)) as [[c2 i2]|] eqn:E2; [|discriminate].
    apply int_to_col_step_letters in E2 as (H2 & A2 & L2); auto; [|lia].
    cbn [bind].
    destruct (int_to_col_step 1 (c2, i2)) as [[c1 i1]|] eqn:E1; [|discriminate].
    apply int_to_col_step_letters in E1 as (H1 & A1' & L1); auto; [|lia].
    cbn [bind].
    destruct (int_to_col_step 0 (c1, i1)) as [[c0 i0]|] eqn:E0; [|discriminate].
    apply int_to_col_step_letters in E0 as (H0 & A0 & L0); auto; [|lia].
    cbn [bind fst]. intros E. injection E as <-. simpl in L2. split; [assumption|lia].
  - intros E. injection E as <-. simpl. split; [reflexivity|lia].
Qed.

Lemma codec_ok_label (i : Z) :
  0 < i -> codec_ok i = true ->
  exists lbl, int_to_col i = Ok lbl /\ label lbl = true /\ col_to_int lbl = i.
Proof.
  intros Hi. unfold codec_ok.
  destruct (int_to_col i) as [lbl|] eqn:E; [|discriminate].
  intros H. apply Z.eqb_eq in H. exists lbl. repeat split; auto.
  apply int_to_col_letters in E as [Ha Hl]; [|lia].
  destruct (AZ_label_or_empty lbl (conj Ha Hl)) as [-> |]; [|assumption].
  rewrite col_to_int_empty in H. lia.
Qed.

(** ** [set_a1] and [update] on a full set of parts *)

Lemma set_a1_full (self : A1) (t sc : string) (sr : Z) (ec : string) (er : Z) :
  title t -> label sc = true -> 0 < sr -> label ec = true -> 0 <= er ->
  set_a1 self (full_text t sc sr ec er) =
  if col_to_int ec >=? col_to_int sc then
    (mkA1 (full_text t sc sr ec er) t sc ec (col_to_int sc) (col_to_int ec) sr er,
     true)
  else (self, false).
Proof.
  intros Ht Hsc Hsr Hec Her. rewrite set_a1_state, extract_full by assumption.
  unfold valid_dimensions.
  rewrite (label_truthy sc Hsc), (label_truthy ec Hec). reflexivity.
Qed.

Lemma update_full (self : A1) (t sc : string) (sr : Z) (ec : string) (er : Z) :
  title t -> label sc = true -> 0 < sr -> label ec = true -> 0 <= er ->
  exists t',
    title t' /\
    (a1 <- generate_a1 t (ColStr sc) sr (ColStr ec) er ;;
     if truthy a1 then Ok (set_a1 self a1) else Ok (self, false))
    = Ok (if col_to_int ec >=? col_to_int sc then
            (mkA1 (full_text t' sc sr ec er) t' sc ec
                  (col_to_int sc) (col_to_int ec) sr er, true)
          else (self, false))
    /\ ((col_to_int ec >=? col_to_int sc) = true ->
        Valid (mkA1 (full_text t' sc sr ec er) t' sc ec
                    (col_to_int sc) (col_to_int ec) sr er)).
Proof.
  intros Ht Hsc Hsr Hec Her.
  destruct (generate_full t sc sr ec er Ht Hsc Hsr Hec) as (t' & Ht' & ->).
  exists t'. split; [assumption|]. cbn [bind].
  rewrite (full_text_truthy t' sc sr ec er Ht').
  rewrite (set_a1_full self t' sc sr ec er) by assumption.
  split; [reflexivity|]. intros Hord.
  apply Valid_intro; auto using full_text_truthy, extract_full.
  unfold valid_dimensions.
  now rewrite (label_truthy sc Hsc), (label_truthy ec Hec).
Qed.

(** The parts of a valid object with both columns and a title. *)
Lemma Valid_cols_bounded (r : A1) :
  Valid r -> cols_bounded r = true -> _sheet r <> "" ->
  title (_sheet r) /\ label (_start_col r) = true /\ 0 < _start_row r
  /\ label (_end_col r) = true /\ 0 <= _end_row r.
Proof.
  intros Hv Hc Hs. apply Valid_dims_ok in Hv.
  destruct Hv as (Hsc & Hec & Hsr & Her & Hb & Ht).
  unfold cols_bounded in Hc. apply andb_prop in Hc as [Hc1 Hc2].
  rewrite Hc1 in Hb. symmetry in Hb. apply nonzero_true in Hb.
  repeat split; try lia.
  - destruct (Ht Hc1); [contradiction | assumption].
  - destruct Hsc as [E|]; [|assumption]. rewrite E in Hc1. discriminate.
  - destruct Hec as [E|]; [|assumption]. rewrite E in Hc2. discriminate.
Qed.

(** ** Appending to a valid object *)

Lemma append_rows_grows (r : A1) (n : Z) :
  Valid r -> bounded r = true -> _sheet r <> "" -> n <> 0 ->
  0 < _end_row r + n ->
  exists r',
    append_rows r n = Ok (r', true) /\ Valid r'
    /\ _end_row r' = _end_row r + n /\ _start_row r' = _start_row r
    /\ _start_col r' = _start_col r /\ _end_col r' = _end_col r
    /\ _start_col_int r' = _start_col_int r
    /\ _end_col_int r' = _end_col_int r.
Proof.
  intros Hv Hb Hs Hn Hnew.
  unfold bounded in Hb. apply andb_prop in Hb as [Hrows Hcols].
  destruct (Valid_cols_bounded r Hv Hcols Hs) as (Ht & Hsc & Hsr & Hec & Her).
  pose proof (Valid_col_order r Hv Hcols) as Hord.
  apply Valid_unfold in Hv as (_ & _ & Hsi & Hei).
  unfold append_rows. rewrite Hrows.
  replace (nonzero n) with true by (symmetry; now apply nonzero_true).
  cbn [andb]. destruct (Z.gtb_spec (_end_row r + n) 0) as [_|]; [|lia].
  cbn [update from bind].
  destruct (update_full r (_sheet r) (_start_col r) (_start_row r) (_end_col r)
              (_end_row r + n) Ht Hsc Hsr Hec ltac:(lia))
    as (t' & Ht' & -> & HV).
  rewrite Hord in *. eexists. split; [reflexivity|].
  split; [now apply HV|]. cbn. repeat split; congruence.
Qed.

Lemma append_cols_moves (r : A1) (n : Z) :
  Valid r -> cols_bounded r = true -> _sheet r <> "" -> n <> 0 ->
  0 < _end_col_int r + n <= GoogleSheetsMaxColumns ->
  codec_ok (_end_col_int r + n) = true ->
  (_end_col_int r + n < _start_col_int r -> append_cols r n = Ok (r, false))
  /\ (_start_col_int r <= _end_col_int r + n ->
      exists r',
        append_cols r n = Ok (r', true) /\ Valid r'
        /\ _end_col_int r' = _end_col_int r + n
        /\ _start_col_int r' = _start_col_int r
        /\ _start_col r' = _start_col r
        /\ _start_row r' = _start_row r /\ _end_row r' = _end_row r).
Proof.
  intros Hv Hcols Hs Hn Hnew Hok.
  destruct (Valid_cols_bounded r Hv Hcols Hs) as (Ht & Hsc & Hsr & Hec & Her).
  apply Valid_unfold in Hv as (_ & _ & Hsi & Hei).
  destruct (codec_ok_label (_end_col_int r + n) (proj1 Hnew) Hok)
    as (lbl & Hlbl & Hl & Hval).
  assert (Happ : append_cols r n =
    (a1 <- generate_a1 (_sheet r) (ColStr (_start_col r)) (_start_row r)
             (ColStr lbl) (_end_row r) ;;
     if truthy a1 then Ok (set_a1 r a1) else Ok (r, false))).
  { unfold append_cols. rewrite Hcols.
    replace (nonzero n) with true by (symmetry; now apply nonzero_true).
    cbn [andb]. rewrite <- Hei.
    replace ((_end_col_int r + n >? 0)
             && (_end_col_int r + n <=? GoogleSheetsMaxColumns)) with true
      by (symmetry; apply andb_true_intro; split;
          [apply Z.gtb_lt | apply Z.leb_le]; lia).
    cbn [update from bind col_text]. rewrite Hlbl. reflexivity. }
  rewrite Happ.
  destruct (update_full r (_sheet r) (_start_col r) (_start_row r) lbl
              (_end_row r) Ht Hsc Hsr Hl Her) as (t' & Ht' & -> & HV).
  rewrite Hval, <- Hsi in *. split.
  - intros Hlt.
    destruct (Z.geb_spec (_end_col_int r + n) (_start_col_int r)); [lia|].
    reflexivity.
  - intros Hge.
    destruct (Z.geb_spec (_end_col_int r + n) (_start_col_int r)); [|lia].
    eexists. split; [reflexivity|]. split; [now apply HV|].
    cbn. repeat split; congruence.
Qed.

(** ** When a text is valid *)

Lemma valid_init (s : string) : valid (init s) = valid_dimensions (extract_a1 s).
Proof.
  destruct s as [|c s]; [reflexivity|].
  unfold init. cbn [truthy]. rewrite set_a1_state.
  destruct (valid_dimensions (extract_a1 (String c s))); [|reflexivity].
  now destruct (extract_a1 (String c s)) as [[[[t sc] sr] ec] er].
Qed.

Lemma valid_dimensions_false (t sc : string) (sr : Z) (ec : string) (er : Z) :
  valid_dimensions (t, sc, sr, ec, er) = false <->
  (sc = "" /\ sr = 0 /\ (ec <> "" \/ er <> 0 \/ t = ""))
  \/ (sc <> "" /\ ec <> "" /\ col_to_int ec < col_to_int sc).
Proof.
  unfold valid_dimensions.
  destruct (truthy sc) eqn:Hsc; destruct (nonzero sr) eqn:Hsr; cbn [andb negb];
    try apply truthy_true in Hsc; try apply truthy_false in Hsc;
    try apply nonzero_true in Hsr; try apply nonzero_false in Hsr.
  1,2: destruct (truthy ec) eqn:Hec;
    [ apply truthy_true in Hec; rewrite Z.geb_leb, Z.leb_gt; intuition congruence
    | apply truthy_false in Hec; intuition congruence ].
  - intuition congruence.
  - rewrite negb_false_iff, !orb_true_iff, negb_true_iff.
    rewrite truthy_true, truthy_false, nonzero_true. tauto.
Qed.

Lemma invalid_matched (s w : string) (g : groups) :
  re_match _a1_re s = Some (w, g) ->
  valid (init s) = false <->
  (grp g "start_col" = "" /\ grp_int g "start_row" = 0
   /\ (grp g "end_col" <> "" \/ grp_int g "end_row" <> 0 \/ grp g "sheet" = ""))
  \/ (grp g "start_col" <> "" /\ grp g "end_col" <> ""
      /\ col_to_int (grp g "end_col") < col_to_int (grp g "start_col")).
Proof.
  intros H. rewrite valid_init, (extract_matched s w g H), valid_dimensions_false.
  apply a1_re_shaped in H.
  pose proof (shaped_col g "end_col" H (or_intror eq_refl)) as Hec.
  destruct (truthy (grp g "start_col")) eqn:Hsc;
    destruct (nonzero (grp_int g "start_row")) eqn:Hsr;
    try apply truthy_true in Hsc; try apply truthy_false in Hsc;
    try apply nonzero_true in Hsr; try apply nonzero_false in Hsr.
  - intuition congruence.
  - intuition (try congruence; try lia).
  - split.
    + intros [(E & _) | (_ & Hne & Hlt)]; [discriminate|].
      destruct Hec as [|Hl]; [contradiction|].
      pose proof (col_to_int_label _ Hl). change (col_to_int "A") with 1 in Hlt. lia.
    + intuition congruence.
  - intuition congruence.
Qed.

Lemma invalid_unmatched (s : string) :
  re_match _a1_re s = None ->
  valid (init s) = false <-> re_match _a1_sheet_only_re s = None.
Proof.
  intros H. rewrite valid_init. unfold extract_a1. rewrite H.
  destruct (re_match _a1_sheet_only_re s) as [[w g]|] eqn:E.
  - apply sheet_only_whole in E. apply truthy_true in E.
    unfold valid_dimensions. cbn. rewrite E. split; discriminate.
  - split; reflexivity.
Qed.

(** ** Every object is blank or valid *)

Lemma set_a1_Inv (self : A1) (s : string) : Inv self -> Inv (fst (set_a1 self s)).
Proof.
  intros Hself. rewrite set_a1_state.
  destruct (valid_dimensions (extract_a1 s)) eqn:Hd; [|exact Hself].
  destruct (extract_a1 s) as [[[[t sc] sr] ec] er] eqn:He. right.
  apply Valid_intro; auto.
  destruct s; [|reflexivity].
  vm_compute in He. injection He as <- <- <- <- <-. discriminate Hd.
Qed.

Lemma init_Inv (s : string) : Inv (init s).
Proof.
  unfold init. destruct (truthy s); [|now left].
  apply set_a1_Inv. now left.
Qed.

Lemma update_Inv (self r' : A1) (ok : bool) sheet start_col start_row end_col end_row :
  Inv self ->
  update self sheet start_col start_row end_col end_row = Ok (r', ok) ->
  Inv r'.
Proof.
  intros Hself. unfold update.
  destruct (match start_col with None => _ | Some c => _ end) as [sc|]; [|discriminate].
  cbn [bind].
  destruct (match end_col with None => _ | Some c => _ end) as [ec|]; [|discriminate].
  cbn [bind].
  destruct (generate_a1 _ _ _ _ _) as [a1|]; [|discriminate]. cbn [bind].
  destruct (truthy a1); intros E; inversion E as [E']; subst; [|exact Hself].
  change r' with (fst (r', ok)). rewrite <- E'. now apply set_a1_Inv.
Qed.

Lemma append_Inv (self r' : A1) (ok : bool) (n : Z) :
  Inv self ->
  append_rows self n = Ok (r', ok) \/ append_cols self n = Ok (r', ok) ->
  Inv r'.
Proof.
  intros Hself [H | H].
  - unfold append_rows in H. destruct (rows_bounded self && nonzero n).
    + destruct (_end_row self + n >? 0); [now apply update_Inv in H|].
      now inversion H; subst.
    + now inversion H; subst.
  - unfold append_cols in H. destruct (cols_bounded self && nonzero n).
    + destruct ((_ >? 0) && (_ <=? _)); [now apply update_Inv in H|].
      now inversion H; subst.
    + now inversion H; subst.
Qed.

Lemma reshape_Inv (self r' : A1) (ok : bool) (rows cols : Z) :
  Inv self -> reshape self rows cols = Ok (r', ok) -> Inv r'.
Proof.
  intros Hself H. unfold reshape in H.
  destruct ((rows >=? 0) && (cols >=? 0)); [now apply update_Inv in H|].
  now inversion H; subst.
Qed.

(** ** Texts that begin with a row, or with a column alone *)

Lemma init_state (s t sc ec : string) (sr er : Z) :
  truthy s = true -> extract_a1 s = (t, sc, sr, ec, er) ->
  valid_dimensions (t, sc, sr, ec, er) = true ->
  init s = mkA1 s t sc ec (col_to_int sc) (col_to_int ec) sr er.
Proof.
  intros Hs He Hd. unfold init. now rewrite Hs, set_a1_state, He, Hd.
Qed.

Lemma bang_text_truthy (t R : string) : title t -> truthy (t ++ String "!" R) = true.
Proof. intros Ht. now destruct (title_first t Ht) as (c & t' & -> & _). Qed.

(** [title!<sr>:<ec><er>] with a start row other than 0: the start column
    is "A", the rest is as written. *)
Lemma row_start_text (t dsr ec der : string) :
  title t -> all digit dsr = true -> row_value dsr <> 0 ->
  cols ec = true -> all digit der = true ->
  init (t ++ String "!" (dsr ++ String ":" (ec ++ der))) =
  mkA1 (t ++ String "!" (dsr ++ String ":" (ec ++ der))) t "A" ec
       1 (col_to_int ec) (row_value dsr) (row_value der).
Proof.
  intros Ht Hsr Hnz Hec Her.
  pose proof (extract_generated t "" dsr ec der Ht eq_refl Hsr Hec Her) as He.
  cbn [append truthy] in He. apply nonzero_true in Hnz. rewrite Hnz in He.
  apply (init_state _ _ _ _ _ _ (bang_text_truthy t _ Ht) He).
  unfold valid_dimensions. cbn [truthy negb andb].
  destruct (truthy ec) eqn:E; [|reflexivity].
  apply cols_spec in Hec. destruct (AZ_label_or_empty ec Hec) as [-> | Hl];
    [discriminate|].
  pose proof (col_to_int_label ec Hl). change (col_to_int "A") with 1.
  apply Z.geb_le. lia.
Qed.

(** [title!<sc>:<ec><er>], or the same with a start row written 0, and
    columns in order: the start row is 1, the rest is as written. *)
Lemma col_start_text (t sc dsr ec der : string) :
  title t -> label sc = true -> all digit dsr = true -> row_value dsr = 0 ->
  cols ec = true -> all digit der = true ->
  ec = "" \/ col_to_int sc <= col_to_int ec ->
  init (t ++ String "!" (sc ++ dsr ++ String ":" (ec ++ der))) =
  mkA1 (t ++ String "!" (sc ++ dsr ++ String ":" (ec ++ der))) t sc ec
       (col_to_int sc) (col_to_int ec) 1 (row_value der).
Proof.
  intros Ht Hsc Hsr Hz Hec Her Hord.
  pose proof (extract_generated t sc dsr ec der Ht (label_cols sc Hsc) Hsr Hec Her)
    as He.
  rewrite Hz, (label_truthy sc Hsc) in He. cbn [nonzero Z.eqb negb] in He.
  apply (init_state _ _ _ _ _ _ (bang_text_truthy t _ Ht) He).
  unfold valid_dimensions. rewrite (label_truthy sc Hsc). cbn [negb andb].
  destruct (truthy ec) eqn:E; [|reflexivity].
  destruct Hord as [-> | Hle]; [discriminate|]. apply Z.geb_le. lia.
Qed.

(** * The claims *)

(** C1. The claim: the column codec is a bijection, [col_to_int (int_to_col i)
    = i] on [1, 18278] and [int_to_col (col_to_int s) = s] on labels. The
    code breaks it at index 26: the loop of [int_to_col] takes the quotient
    1 at [p = 1], writes "A" and is left with 0, so 26 comes out as "A", the
    label of 1, and "Z" does not come back from its own index. The same
    happens wherever a lower letter should be Z (52, 702); the branch for a
    quotient above 26 does carry (18278). *)
Theorem int_to_col_26 :
  int_to_col 26 = Ok "A" /\ col_to_int "A" = 1
  /\ col_to_int "Z" = 26 /\ int_to_col (col_to_int "Z") = Ok "A"
  /\ int_to_col 52 = Ok "B" /\ int_to_col 702 = Ok "AA"
  /\ int_to_col 27 = Ok "AA" /\ int_to_col 18278 = Ok "ZZZ".
Proof. repeat split; vm_compute; reflexivity. Qed.

(** C2. The claim: a bare cell [title!<col><row>] with no colon parses to a
    valid one-cell range. The code rejects it: the bounds of [_a1_re] hold a
    colon that is not optional, and the title-only pattern stops at [!]; yet
    [generate_a1] writes exactly such a text when no end column is given. *)
Theorem bare_cell_rejected :
  re_match _a1_re "test!A45" = None
  /\ re_match _a1_sheet_only_re "test!A45" = None
  /\ valid (init "test!A45") = false
  /\ generate_a1 "test" (ColStr "A") 45 (ColStr "") 0 = Ok "test!A45".
Proof. repeat split; vm_compute; reflexivity. Qed.

(** C3, as the claim states it, fails: the bare form [title!] is valid, and
    so is a text whose start side is filled and whose end side is empty. *)
Lemma title_bang_is_valid :
  valid (init "Sheet1!") = true /\ valid (init "test!A1:") = true.
Proof. split; vm_compute; reflexivity. Qed.

(** C3 (amended). A text is invalid exactly when
    - neither [_a1_re] nor the title-only pattern matches it, or
    - [_a1_re] matches with no start column and no start row other than 0,
      while an end column or an end row other than 0 is there or the title
      is missing, or
    - [_a1_re] matches with both columns and the end column's index is
      below the start column's.
    Rows may run backwards. [title!] and [title!A1:] are valid;
    ["test!:d3"], ["test:"] and ["test!F2:A3"] are invalid. *)
Theorem invalid_exactly_when :
  (forall s : string,
     valid (init s) = false <->
     (re_match _a1_re s = None /\ re_match _a1_sheet_only_re s = None)
     \/ exists w g,
          re_match _a1_re s = Some (w, g)
          /\ ((grp g "start_col" = "" /\ grp_int g "start_row" = 0
               /\ (grp g "end_col" <> "" \/ grp_int g "end_row" <> 0
                   \/ grp g "sheet" = ""))
              \/ (grp g "start_col" <> "" /\ grp g "end_col" <> ""
                  /\ col_to_int (grp g "end_col")
                     < col_to_int (grp g "start_col"))))
  /\ valid (init "test!C4:BX2") = true
  /\ valid (init "Sheet1!") = true
  /\ valid (init "test!A1:") = true
  /\ valid (init "test!:d3") = false
  /\ valid (init "test:") = false
  /\ valid (init "test!F2:A3") = false.
Proof.
  split; [|repeat split; vm_compute; reflexivity].
  intros s. destruct (re_match _a1_re s) as [[w g]|] eqn:Hm.
  - rewrite (invalid_matched s w g Hm). split.
    + intros H. right. exists w, g. split; [reflexivity | exact H].
    + intros [[E _] | (w' & g' & E & H)]; [discriminate|].
      injection E as <- <-. exact H.
  - rewrite (invalid_unmatched s Hm). split.
    + intros H. left. split; [reflexivity | exact H].
    + intros [[_ H] | (w' & g' & E & _)]; [exact H | discriminate].
Qed.

(** C4. For every text that [_a1_re] matches and that parses to a valid
    object: a start row other than 0 with no start column gives the start
    column "A"; a start column with no start row (or row 0) gives the start
    row 1; the end column and end row are the ones of the text, the empty
    string and 0 when the group is not there. A row written 0 counts as not
    given, as in the data model. [row_start_text] and [col_start_text]
    above read the same off the texts themselves. *)
Theorem start_anchor_inference (s w : string) (g : groups) :
  re_match _a1_re s = Some (w, g) ->
  valid (init s) = true ->
  (grp g "start_col" = "" -> grp_int g "start_row" <> 0 ->
   _start_col (init s) = "A" /\ _start_row (init s) = grp_int g "start_row")
  /\ (grp g "start_col" <> "" -> grp_int g "start_row" = 0 ->
      _start_col (init s) = grp g "start_col" /\ _start_row (init s) = 1)
  /\ _end_col (init s) = grp g "end_col"
  /\ _end_row (init s) = grp_int g "end_row"
  /\ (group g "end_col" = None -> _end_col (init s) = "")
  /\ (group g "end_row" = None -> _end_row (init s) = 0).
Proof.
  intros Hm Hv. pose proof Hv as Hd. rewrite valid_init in Hd.
  assert (Hi : init s = fst (set_a1 reset s)).
  { unfold init. destruct (truthy s) eqn:E; [reflexivity|].
    apply truthy_false in E. subst s. discriminate Hv. }
  rewrite Hi, set_a1_state, Hd, (extract_matched s w g Hm). cbn [fst _start_col
    _start_row _end_col _end_row].
  split; [|split; [|split; [|split; [|split]]]].
  - intros He Hnz. rewrite He. cbn [truthy].
    apply nonzero_true in Hnz. rewrite Hnz. split; reflexivity.
  - intros Hne Hz. apply truthy_true in Hne. rewrite Hne, Hz.
    split; reflexivity.
  - reflexivity.
  - reflexivity.
  - unfold grp. now intros ->.
  - unfold grp_int, grp. now intros ->.
Qed.

Lemma start_anchor_inference_witness :
  _start_col (init "test!4:ASC") = "A" /\ _start_row (init "test!4:ASC") = 4
  /\ _end_col (init "test!4:ASC") = "ASC" /\ _end_row (init "test!4:ASC") = 0.
Proof.
  destruct (start_anchor_inference "test!4:ASC" "test!4:ASC"
              [("end_col", "ASC"); ("start_row", "4"); ("start_col", "");
               ("sheet", "test")] eq_refl eq_refl)
    as (Ha & _ & Hec & _ & _ & Her).
  destruct (Ha eq_refl ltac:(discriminate)) as [Hsc Hsr].
  split; [exact Hsc | split; [exact Hsr | split; [exact Hec |]]].
  exact (Her eq_refl).
Defined.

(** C5. The claim: [reshape(rows, cols)] with both at least 0 always
    succeeds, and [reshape(0, 0)] gives the whole sheet. The code reports
    failure and leaves the object as it was: with no end column
    [generate_a1] writes ["test!A1"], which [_a1_re] does not match; the
    docstring of [reshape] promises the unbounded forms. The same happens
    with rows alone, and an object without title never reshapes. *)
Theorem reshape_zero_fails :
  reshape (init "test!A1:B2") 0 0 = Ok (init "test!A1:B2", false)
  /\ reshape (init "test!A1:B2") 5 0 = Ok (init "test!A1:B2", false)
  /\ reshape (init "A1:B2") 5 3 = Ok (init "A1:B2", false)
  /\ valid (init "A1:B2") = true.
Proof. repeat split; vm_compute; reflexivity. Qed.

(** C6, as the claim states it, fails: on ["test!C1:E5"] the columns are
    bounded and taking 3 away gives the end index 2, above 0 and not above
    18278, yet [append_cols] reports failure: the new end column B would
    come before the start column C, and the text is parsed again before it
    is kept. *)
Lemma append_cols_before_start :
  Valid (init "test!C1:E5")
  /\ cols_bounded (init "test!C1:E5") = true
  /\ 0 < _end_col_int (init "test!C1:E5") + -3 <= GoogleSheetsMaxColumns
  /\ append_cols (init "test!C1:E5") (-3) = Ok (init "test!C1:E5", false).
Proof.
  split; [split; reflexivity|]. split; [reflexivity|].
  split; [vm_compute; split; [reflexivity | discriminate] | reflexivity].
Qed.

(** C6 (amended). For every valid object and every [n]:
    - appending to rows (columns) that are not bounded, or appending 0,
      changes nothing and reports success;
    - with the rows bounded and [n] not 0, a new end row of 0 or less
      reports failure and changes nothing; with the columns bounded, so
      does a new end index of 0 or less or above 18278;
    - with the columns bounded, a title, and a new end index that the codec
      gives its own label, an end index below the start column's reports
      failure and changes nothing;
    - on a fully bounded object with a title, a new end row above 0
      succeeds: the end row grows by exactly [n], the start row and the
      columns stay, and the object is valid again;
    - with the columns bounded, a title, and a new end index between the
      start column's and 18278 that the codec gives its own label,
      [append_cols] succeeds: the end index grows by exactly [n], the
      start column and the rows stay, and the object is valid again;
    - [reduce_rows] and [reduce_cols] are the appends of [- n].
    Objects without a title, rows bounded without an end column, and
    indices the codec mislabels are left out. *)
Theorem append_reduce (r : A1) (n : Z) :
  Valid r ->
  (rows_bounded r = false \/ n = 0 -> append_rows r n = Ok (r, true))
  /\ (cols_bounded r = false \/ n = 0 -> append_cols r n = Ok (r, true))
  /\ (rows_bounded r = true -> n <> 0 -> _end_row r + n <= 0 ->
      append_rows r n = Ok (r, false))
  /\ (cols_bounded r = true -> n <> 0 ->
      _end_col_int r + n <= 0 \/ GoogleSheetsMaxColumns < _end_col_int r + n ->
      append_cols r n = Ok (r, false))
  /\ (cols_bounded r = true -> _sheet r <> "" -> n <> 0 ->
      0 < _end_col_int r + n < _start_col_int r ->
      codec_ok (_end_col_int r + n) = true ->
      append_cols r n = Ok (r, false))
  /\ (bounded r = true -> _sheet r <> "" -> n <> 0 -> 0 < _end_row r + n ->
      exists r',
        append_rows r n = Ok (r', true) /\ Valid r'
        /\ _end_row r' = _end_row r + n /\ _start_row r' = _start_row r
        /\ _start_col r' = _start_col r /\ _end_col r' = _end_col r
        /\ _start_col_int r' = _start_col_int r
        /\ _end_col_int r' = _end_col_int r)
  /\ (cols_bounded r = true -> _sheet r <> "" -> n <> 0 ->
      _start_col_int r <= _end_col_int r + n <= GoogleSheetsMaxColumns ->
      codec_ok (_end_col_int r + n) = true ->
      exists r',
        append_cols r n = Ok (r', true) /\ Valid r'
        /\ _end_col_int r' = _end_col_int r + n
        /\ _start_col_int r' = _start_col_int r
        /\ _start_col r' = _start_col r
        /\ _start_row r' = _start_row r /\ _end_row r' = _end_row r)
  /\ reduce_rows r n = append_rows r (- n)
  /\ reduce_cols r n = append_cols r (- n).
Proof.
  intros Hv.
  assert (Hei : col_to_int (_end_col r) = _end_col_int r)
    by (symmetry; now apply Valid_unfold in Hv).
  assert (Hstart : cols_bounded r = true -> _sheet r <> "" ->
                   1 <= _start_col_int r <= GoogleSheetsMaxColumns).
  { intros Hc Hs.
    destruct (Valid_cols_bounded r Hv Hc Hs) as (_ & Hsc & _).
    apply Valid_unfold in Hv as (_ & _ & -> & _).
    now apply col_to_int_label. }
  split; [|split; [|split; [|split; [|split; [|split; [|split; [|split]]]]]]].
  - intros [H | ->]; unfold append_rows; [now rewrite H|].
    now rewrite andb_false_r.
  - intros [H | ->]; unfold append_cols; [now rewrite H|].
    now rewrite andb_false_r.
  - intros Hb Hn Hle. unfold append_rows. rewrite Hb.
    apply nonzero_true in Hn. rewrite Hn. cbn [andb].
    destruct (Z.gtb_spec (_end_row r + n) 0); [lia | reflexivity].
  - intros Hb Hn Hout. unfold append_cols. rewrite Hb, Hei.
    apply nonzero_true in Hn. rewrite Hn. cbn [andb].
    destruct (Z.gtb_spec (_end_col_int r + n) 0);
      destruct (Z.leb_spec (_end_col_int r + n) GoogleSheetsMaxColumns);
      try reflexivity; lia.
  - intros Hb Hs Hn Hnew Hok. specialize (Hstart Hb Hs).
    apply (append_cols_moves r n Hv Hb Hs Hn); [lia | assumption | lia].
  - intros Hb Hs Hn Hnew. now apply append_rows_grows.
  - intros Hb Hs Hn Hnew Hok. specialize (Hstart Hb Hs).
    apply (append_cols_moves r n Hv Hb Hs Hn); [lia | assumption | lia].
  - reflexivity.
  - reflexivity.
Qed.

Lemma append_reduce_witness :
  (exists r', append_rows (init "test!C4:AB25") 2 = Ok (r', true)
              /\ _end_row r' = 27)
  /\ (exists r', append_cols (init "test!C4:AB25") 10 = Ok (r', true)
                 /\ _end_col_int r' = 38)
  /\ append_rows (init "test!C4:AB25") (-25) = Ok (init "test!C4:AB25", false)
  /\ append_cols (init "test!C4:AB25") (-26) = Ok (init "test!C4:AB25", false).
Proof.
  assert (Hv : Valid (init "test!C4:AB25")) by (split; reflexivity).
  split; [|split; [|split]].
  - destruct (append_reduce (init "test!C4:AB25") 2 Hv)
      as (_ & _ & _ & _ & _ & H & _).
    destruct H as (r' & Hr & _ & He & _);
      [reflexivity | discriminate | discriminate | reflexivity |].
    exists r'. split; [exact Hr | exact He].
  - destruct (append_reduce (init "test!C4:AB25") 10 Hv)
      as (_ & _ & _ & _ & _ & _ & H & _).
    destruct H as (r' & Hr & _ & He & _);
      [reflexivity | discriminate | discriminate
       | split; discriminate | reflexivity |].
    exists r'. split; [exact Hr | exact He].
  - destruct (append_reduce (init "test!C4:AB25") (-25) Hv)
      as (_ & _ & H & _).
    apply H; [reflexivity | discriminate | discriminate].
  - destruct (append_reduce (init "test!C4:AB25") (-26) Hv)
      as (_ & _ & _ & _ & H & _).
    apply H; [reflexivity | discriminate | discriminate
              | split; reflexivity | reflexivity].
Defined.

(** C7. [__len__] is [(end_row - start_row) * (end_col_int - start_col_int
    + 1)] on every fully bounded object and 0 on every other one; it is 2 on
    ["test!6:A8"] and 0 on ["test!B:Z"], ["test"] and ["test!6:10"]. *)
Theorem len_cell_count :
  (forall r : A1,
     __len__ r =
     if bounded r then
       (_end_row r - _start_row r) * (_end_col_int r - _start_col_int r + 1)
     else 0)
  /\ bounded (init "test!6:A8") = true /\ __len__ (init "test!6:A8") = 2
  /\ valid (init "test!B:Z") = true /\ __len__ (init "test!B:Z") = 0
  /\ valid (init "test") = true /\ __len__ (init "test") = 0
  /\ valid (init "test!6:10") = true /\ __len__ (init "test!6:10") = 0.
Proof.
  split; [|repeat split; vm_compute; reflexivity].
  intros r. unfold __len__. now destruct (bounded r).
Qed.

(** C8. [contains]: every valid object contains a copy of itself, given as
    an object or as its own text; objects with different titles never
    contain one another; an object with neither rows nor columns bounded
    contains every valid object of the same title. *)
Theorem contains_laws (r a : A1) :
  (valid r = true -> contains r (AObj r) = true)
  /\ (Valid r -> contains r (AStr (_a1 r)) = true)
  /\ (_sheet a <> _sheet r -> contains r (AObj a) = false)
  /\ (valid r = true -> valid a = true -> _sheet a = _sheet r ->
      rows_bounded r = false -> cols_bounded r = false ->
      contains r (AObj a) = true).
Proof.
  assert (Hrefl : valid r = true -> contains r (AObj r) = true).
  { intros Hv. unfold contains. unfold valid in Hv |- *. rewrite Hv.
    cbn [andb]. rewrite String.eqb_refl, !Z.geb_leb, !Z.leb_refl.
    destruct (bounded r), (rows_bounded r), (cols_bounded r); reflexivity. }
  split; [exact Hrefl|]. split; [|split].
  - intros [Hv Hi]. specialize (Hrefl Hv). unfold contains in *.
    now rewrite Hi.
  - intros Hne. unfold contains. apply String.eqb_neq in Hne. rewrite Hne.
    now destruct (valid a && truthy (_a1 r)).
  - intros Hr Ha Hs Hrows Hcols. unfold contains, bounded.
    unfold valid in Hr. rewrite Ha, Hr, Hs, String.eqb_refl, Hrows, Hcols.
    reflexivity.
Qed.

Lemma contains_laws_witness :
  contains (init "test!C4:AL22") (AObj (init "test!C4:AL22")) = true
  /\ contains (init "test!C4:AL22") (AStr "test!C4:AL22") = true
  /\ contains (init "test!C4:AL22") (AObj (init "other!E7:Z22")) = false
  /\ contains (init "test") (AObj (init "test!E7:Z22")) = true.
Proof.
  destruct (contains_laws (init "test!C4:AL22") (init "other!E7:Z22"))
    as (Hrefl & Htext & Hother & _).
  destruct (contains_laws (init "test") (init "test!E7:Z22"))
    as (_ & _ & _ & Hall).
  split; [exact (Hrefl eq_refl)|].
  split; [exact (Htext (conj eq_refl eq_refl))|].
  split; [apply Hother; discriminate|].
  apply Hall; reflexivity.
Defined.

(** C9. The claim: no operation raises; in particular [generate_a1] with an
    empty start column and a positive start row returns a string. The code
    raises [TypeError] there: that branch adds the row to the text without
    [str], which the branch with a start column does not forget; [update]
    passes the exception on. [int_to_col] raises as well, on an index far
    below zero. *)
Theorem generate_raises :
  generate_a1 "test" (ColStr "") 4 (ColStr "") 0 = Raise TypeError
  /\ update (init "test") None (Some (ColStr "")) (Some 4) None None
     = Raise TypeError
  /\ int_to_col (-100000) = Raise ValueError
  /\ generate_a1 "test" (ColStr "A") 4 (ColStr "") 0 = Ok "test!A4".
Proof. repeat split; vm_compute; reflexivity. Qed.

(** C10. An object built from a text it accepts holds that very text:
    [str] gives it back unchanged and [==] is true of that text alone. The
    anchors the parser infers are not written into it, and the blanks
    around it stay. *)
Theorem text_kept_verbatim (s : string) :
  valid (init s) = true ->
  _a1 (init s) = s /\ str (init s) = s
  /\ forall v, eq (init s) v = true <-> v = s.
Proof.
  intros Hv. assert (Ha : _a1 (init s) = s).
  { pose proof Hv as Hd. rewrite valid_init in Hd.
    unfold init in *. destruct (truthy s) eqn:E; [|discriminate Hv].
    rewrite set_a1_state, Hd.
    now destruct (extract_a1 s) as [[[[t sc] sr] ec] er]. }
  split; [exact Ha|]. split.
  - unfold str. unfold valid in Hv. now rewrite Hv.
  - intros v. unfold eq. rewrite Ha, String.eqb_eq. split; congruence.
Qed.

Lemma text_kept_verbatim_witness :
  str (init " test!4:ASC ") = " test!4:ASC "
  /\ _start_col (init " test!4:ASC ") = "A"
  /\ eq (init " test!4:ASC ") "test!A4:ASC" = false
  /\ eq (init " test!4:ASC ") "test!4:ASC" = false.
Proof.
  destruct (text_kept_verbatim " test!4:ASC " eq_refl) as (_ & Hs & He).
  split; [exact Hs|]. split; [reflexivity|]. split.
  - destruct (eq (init " test!4:ASC ") "test!A4:ASC") eqn:E; [|reflexivity].
    apply He in E. discriminate E.
  - destruct (eq (init " test!4:ASC ") "test!4:ASC") eqn:E; [|reflexivity].
    apply He in E. discriminate E.
Defined.

(** * Further properties of the code *)

(** ** The column codec where it is right *)

Lemma code_inj (a b : ascii) : code a = code b -> a = b.
Proof.
  unfold code. intros H. apply N2Z.inj in H.
  rewrite <- (ascii_N_embedding a), <- (ascii_N_embedding b). now rewrite H.
Qed.

Lemma code_range (a : ascii) : 0 <= code a < 256.
Proof.
  unfold code. pose proof (N_ascii_bounded a). lia.
Qed.

Lemma chr_code (a : ascii) : chr (code a) = Ok (String a "").
Proof.
  unfold chr. pose proof (code_range a) as H.
  replace ((0 <=? code a) && (code a <? 256)) with true
    by (symmetry; apply andb_true_intro; split;
        [apply Z.leb_le | apply Z.ltb_lt]; lia).
  unfold code. now rewrite N2Z.id, ascii_N_embedding.
Qed.

(** The value of a label, letter by letter. *)
Lemma col_to_int_letters (s : string) :
  label s = true ->
  (exists a, s = String a "" /\ AZ a = true /\ col_to_int s = ord a - 64)
  \/ (exists a b, s = String a (String b "") /\ AZ a = true /\ AZ b = true
        /\ col_to_int s = (ord a - 64) * 26 + (ord b - 64))
  \/ (exists a b c, s = String a (String b (String c ""))
        /\ AZ a = true /\ AZ b = true /\ AZ c = true
        /\ col_to_int s = (ord a - 64) * 676 + (ord b - 64) * 26 + (ord c - 64)).
Proof.
  intros H. unfold col_to_int.
  pose proof (label_matches s H) as Hm.
  apply label_spec in H as (Hall & Hlo & Hhi).
  rewrite (upper_AZ s Hall), Hm.
  destruct s as [|a [|b [|c [|d s]]]]; simpl in Hlo, Hhi; try lia;
    simpl in Hall;
    repeat match goal with
           | H : _ && _ = true |- _ => apply andb_prop in H as [? ?]
           end;
    cbn [reversed col_sum]; change (0 + 1) with 1; change (1 + 1) with 2;
    change (26 ^ 0) with 1; change (26 ^ 1) with 26; change (26 ^ 2) with 676.
  - left. exists a. repeat split; auto. lia.
  - right; left. exists a, b. repeat split; auto. lia.
  - right; right. exists a, b, c. repeat split; auto. lia.
Qed.

Lemma col_to_int_inj (s t : string) :
  label s = true -> label t = true -> col_to_int s = col_to_int t -> s = t.
Proof.
  intros Hs Ht.
  destruct (col_to_int_letters s Hs) as
    [(a & -> & Ha & ->) | [(a & b & -> & Ha & Hb & ->)
                          | (a & b & c & -> & Ha & Hb & Hc & ->)]];
  destruct (col_to_int_letters t Ht) as
    [(a' & -> & Ha' & ->) | [(a' & b' & -> & Ha' & Hb' & ->)
                            | (a' & b' & c' & -> & Ha' & Hb' & Hc' & ->)]];
  repeat match goal with
         | H : AZ _ = true |- _ => apply AZ_range in H
         end;
  unfold ord in *; intros E; try lia;
  repeat f_equal; apply code_inj; lia.
Qed.

(** X1. [col_to_int] on column labels: every label of one to three capital
    letters has an index between 1 and 18278, and two labels with the same
    index are the same label. *)
Theorem col_to_int_injective (s t : string) :
  label s = true -> label t = true ->
  1 <= col_to_int s <= GoogleSheetsMaxColumns
  /\ (col_to_int s = col_to_int t -> s = t).
Proof.
  intros Hs Ht. split; [now apply col_to_int_label | now apply col_to_int_inj].
Qed.

Lemma divmod_digit (x m r : Z) :
  0 < m -> 0 <= r < m -> (x * m + r) / m = x /\ (x * m + r) mod m = r.
Proof.
  intros Hm Hr. split.
  - rewrite Z.div_add_l by lia. rewrite Z.div_small by lia. lia.
  - rewrite Z.add_comm, Z.mod_add by lia. now apply Z.mod_small.
Qed.

Lemma int_to_col_step_digit (p : Z) (col : string) (a : ascii) (r : Z) :
  0 <= p -> 1 <= ord a - 64 <= 26 -> 0 <= r < 26 ^ p ->
  int_to_col_step p (col, (ord a - 64) * 26 ^ p + r) = Ok (col ++ String a "", r).
Proof.
  intros Hp Ha Hr. unfold int_to_col_step.
  destruct (divmod_digit (ord a - 64) (26 ^ p) r ltac:(lia) Hr) as [-> ->].
  replace (nonzero (ord a - 64)) with true by (symmetry; apply nonzero_true; lia).
  destruct (Z.gtb_spec (ord a - 64) 26); [lia|].
  replace (ord a - 64 + 64) with (code a) by (unfold ord; lia).
  now rewrite chr_code.
Qed.

Lemma int_to_col_step_none (p : Z) (col : string) (i : Z) :
  0 <= i < 26 ^ p -> int_to_col_step p (col, i) = Ok (col, i).
Proof.
  intros Hi. unfold int_to_col_step.
  rewrite Z.div_small, Z.mod_small by lia. reflexivity.
Qed.

Lemma no_Z_range (a : ascii) :
  AZ a = true -> negb (Ascii.eqb a "Z") = true -> 1 <= ord a - 64 <= 25.
Proof.
  intros Ha Hz. pose proof (AZ_range a Ha).
  assert (ord a <> 90); [|lia].
  intros E. apply negb_true_iff, Ascii.eqb_neq in Hz. apply Hz.
  apply code_inj. exact E.
Qed.

Lemma int_to_col_no_Z (s : string) :
  label s = true -> no_Z s = true -> int_to_col (col_to_int s) = Ok s.
Proof.
  intros Hs Hz. pose proof (col_to_int_label s Hs) as Hr.
  unfold int_to_col.
  destruct (Z.leb_spec (col_to_int s) GoogleSheetsMaxColumns); [|lia].
  clear Hr. unfold no_Z in Hz.
  destruct (col_to_int_letters s Hs) as
    [(a & -> & Ha & ->) | [(a & b & -> & Ha & Hb & ->)
                          | (a & b & c & -> & Ha & Hb & Hc & ->)]];
    cbn [all] in Hz;
    repeat match goal with
           | H : _ && _ = true |- _ => apply andb_prop in H as [? ?]
           end;
    repeat match goal with
           | H : AZ ?x = true, H' : negb (Ascii.eqb ?x _) = true |- _ =>
               pose proof (no_Z_range x H H'); clear H H'
           end.
  - rewrite (int_to_col_step_none 2) by (cbn; lia). cbn [bind].
    rewrite (int_to_col_step_none 1) by (cbn; lia). cbn [bind].
    replace (ord a - 64) with ((ord a - 64) * 26 ^ 0 + 0) by (cbn; lia).
    rewrite int_to_col_step_digit by (cbn; lia). reflexivity.
  - rewrite (int_to_col_step_none 2) by (cbn; lia). cbn [bind].
    replace ((ord a - 64) * 26 + (ord b - 64))
      with ((ord a - 64) * 26 ^ 1 + (ord b - 64)) by (cbn; lia).
    rewrite int_to_col_step_digit by (cbn; lia). cbn [bind].
    replace (ord b - 64) with ((ord b - 64) * 26 ^ 0 + 0) at 1 by (cbn; lia).
    rewrite int_to_col_step_digit by (cbn; lia). reflexivity.
  - replace ((ord a - 64) * 676 + (ord b - 64) * 26 + (ord c - 64))
      with ((ord a - 64) * 26 ^ 2 + ((ord b - 64) * 26 ^ 1 + (ord c - 64)))
      by (cbn; lia).
    rewrite int_to_col_step_digit by (cbn; lia). cbn [bind].
    rewrite int_to_col_step_digit by (cbn; lia). cbn [bind].
    replace (ord c - 64) with ((ord c - 64) * 26 ^ 0 + 0) at 1 by (cbn; lia).
    rewrite int_to_col_step_digit by (cbn; lia). reflexivity.
Qed.

(** X2. Where [int_to_col] undoes [col_to_int]: a label without the letter
    Z comes back unchanged from its own index, so the codec gives that index
    its own label. *)
Theorem codec_round_trip_without_Z (s : string) :
  label s = true -> no_Z s = true ->
  int_to_col (col_to_int s) = Ok s /\ codec_ok (col_to_int s) = true.
Proof.
  intros Hs Hz. pose proof (int_to_col_no_Z s Hs Hz) as H.
  split; [exact H|]. unfold codec_ok. rewrite H. apply Z.eqb_refl.
Qed.

(** ** [int_to_col] on an index that is not negative *)

Lemma int_to_col_step_total (p : Z) (col : string) (i : Z) :
  0 <= p -> 0 <= i ->
  exists col' i',
    int_to_col_step p (col, i) = Ok (col', i') /\ 0 <= i'
    /\ ((col' = col /\ i' = i /\ i < 26 ^ p)
        \/ (1 <= i /\ exists c, col' = col ++ String c "")).
Proof.
  intros Hp Hi. unfold int_to_col_step.
  assert (Hpow : 0 < 26 ^ p) by (apply Z.pow_pos_nonneg; lia).
  pose proof (Z.div_pos i (26 ^ p) Hi Hpow) as Hd.
  pose proof (Z.mod_pos_bound i (26 ^ p) Hpow) as Hm.
  destruct (nonzero (i / 26 ^ p)) eqn:Hnz.
  - apply nonzero_true in Hnz.
    assert (1 <= i).
    { destruct (Z.eq_dec i 0) as [->|]; [|lia]. now rewrite Z.div_0_l in Hnz by lia. }
    destruct (Z.gtb_spec (i / 26 ^ p) 26) as [Hgt|Hle].
    + eexists _, _. split; [reflexivity|]. split; [nia|]. right. eauto.
    + destruct (chr_letter (i / 26 ^ p) ltac:(lia)) as (c & -> & _).
      cbn [bind]. eexists _, _. split; [reflexivity|]. split; [lia|].
      right. eauto.
  - apply nonzero_false in Hnz.
    assert (i < 26 ^ p) by (apply Z.div_small_iff in Hnz; lia).
    rewrite Z.mod_small by lia.
    eexists _, _. split; [reflexivity|]. split; [lia|]. left. auto.
Qed.

(** X3. [int_to_col] on an index that is not negative never raises: it
    returns at most three capital letters, and the empty string exactly for
    0 and for an index above 18278. *)
Theorem int_to_col_nonnegative (i : Z) :
  0 <= i ->
  exists lbl,
    int_to_col i = Ok lbl /\ cols lbl = true
    /\ (lbl = "" <-> i = 0 \/ GoogleSheetsMaxColumns < i).
Proof.
  intros Hi.
  assert (Hex : exists lbl, int_to_col i = Ok lbl
                 /\ (lbl = "" <-> i = 0 \/ GoogleSheetsMaxColumns < i)).
  { unfold int_to_col. destruct (Z.leb_spec i GoogleSheetsMaxColumns) as [Hle|Hgt].
    - destruct (int_to_col_step_total 2 "" i) as (c2 & i2 & -> & H2 & S2);
        [lia | lia |]. cbn [bind].
      destruct (int_to_col_step_total 1 c2 i2) as (c1 & i1 & -> & H1 & S1);
        [lia | lia |]. cbn [bind].
      destruct (int_to_col_step_total 0 c1 i1) as (c0 & i0 & -> & H0 & S0);
        [lia | lia |]. cbn [bind fst].
      exists c0. split; [reflexivity|].
      change (26 ^ 0) with 1 in S0.
      destruct S2 as [(-> & -> & L2) | (P2 & x2 & ->)];
        destruct S1 as [(-> & -> & L1) | (P1 & x1 & ->)];
        destruct S0 as [(-> & -> & L0) | (P0 & x0 & ->)];
        (split;
         [ intros E; apply (f_equal String.length) in E;
           rewrite ?length_app in E; simpl in E; lia
         | intros [E | E]; try lia; subst; reflexivity ]).
    - exists "". split; [reflexivity|]. split; auto. }
  destruct Hex as (lbl & E & Hiff). exists lbl. split; [exact E|].
  split; [|exact Hiff]. apply cols_spec. now apply int_to_col_letters with i.
Qed.

(** ** From parts to text and back *)

Lemma quoted_title_cases (t t' : string) :
  quoted_title t = Ok t' -> t' = t \/ t' = String dquote (t ++ String dquote "").
Proof.
  unfold quoted_title. destruct t as [|c t]; [discriminate|].
  destruct (Ascii.eqb c "'" || Ascii.eqb c dquote);
    [|destruct (matches bare_title_re (String c t))];
    intros E; injection E as <-; auto.
Qed.

(** ** What a change leaves behind *)

Lemma set_a1_outcome (self r' : A1) (ok : bool) (s : string) :
  set_a1 self s = (r', ok) ->
  if ok then Valid r' /\ _a1 r' = s else r' = self.
Proof.
  rewrite set_a1_state.
  destruct (valid_dimensions (extract_a1 s)) eqn:Hd.
  - destruct (extract_a1 s) as [[[[t sc] sr] ec] er] eqn:He.
    intros E. injection E as <- <-. split; [|reflexivity].
    apply Valid_intro; auto. destruct s; [|reflexivity].
    vm_compute in He. injection He as <- <- <- <- <-. discriminate Hd.
  - intros E. now injection E as <- <-.
Qed.

Lemma update_outcome (self r' : A1) (ok : bool)
    sheet start_col start_row end_col end_row :
  update self sheet start_col start_row end_col end_row = Ok (r', ok) ->
  if ok then Valid r' else r' = self.
Proof.
  unfold update.
  destruct (match start_col with None => _ | Some c => _ end) as [sc|]; [|discriminate].
  cbn [bind].
  destruct (match end_col with None => _ | Some c => _ end) as [ec|]; [|discriminate].
  cbn [bind].
  destruct (generate_a1 _ _ _ _ _) as [a1|]; [|discriminate]. cbn [bind].
  destruct (truthy a1); intros E; inversion E as [E']; subst.
  - apply set_a1_outcome in E'. destruct ok; tauto.
  - reflexivity.
Qed.

(** X5. A call that reports failure leaves the object as it was: every
    field after [set_a1], [update], [append_rows], [append_cols],
    [reduce_rows], [reduce_cols] or [reshape] returning [False] is the field
    before the call. *)
Theorem failure_changes_nothing (self r' : A1) :
  (forall s, set_a1 self s = (r', false) -> r' = self)
  /\ (forall sheet start_col start_row end_col end_row,
        update self sheet start_col start_row end_col end_row = Ok (r', false) ->
        r' = self)
  /\ (forall n, append_rows self n = Ok (r', false) -> r' = self)
  /\ (forall n, append_cols self n = Ok (r', false) -> r' = self)
  /\ (forall n, reduce_rows self n = Ok (r', false) -> r' = self)
  /\ (forall n, reduce_cols self n = Ok (r', false) -> r' = self)
  /\ (forall rows cols, reshape self rows cols = Ok (r', false) -> r' = self).
Proof.
  assert (Hrows : forall n, append_rows self n = Ok (r', false) -> r' = self).
  { intros n H. unfold append_rows in H.
    destruct (rows_bounded self && nonzero n); [|discriminate].
    destruct (_end_row self + n >? 0); [now apply update_outcome in H|].
    now inversion H. }
  assert (Hcols : forall n, append_cols self n = Ok (r', false) -> r' = self).
  { intros n H. unfold append_cols in H.
    destruct (cols_bounded self && nonzero n); [|discriminate].
    destruct ((_ >? 0) && (_ <=? _)); [now apply update_outcome in H|].
    now inversion H. }
  repeat split.
  - intros s H. now apply set_a1_outcome in H.
  - intros. eapply (update_outcome _ _ false); eassumption.
  - exact Hrows.
  - exact Hcols.
  - intros n. apply Hrows.
  - intros n. apply Hcols.
  - intros rows cols H. unfold reshape in H.
    destruct ((rows >=? 0) && (cols >=? 0)); [now apply update_outcome in H|].
    now inversion H.
Qed.

Lemma failure_changes_nothing_witness :
  append_cols (init "test!C1:E5") (-3) = Ok (init "test!C1:E5", false)
  /\ reshape (init "test!C1:E5") 2 0 = Ok (init "test!C1:E5", false).
Proof.
  destruct (reshape (init "test!C1:E5") 2 0) as [[r' ok]|] eqn:E;
    [|discriminate E].
  assert (Hok : ok = false) by (vm_compute in E; congruence).
  subst ok.
  destruct (failure_changes_nothing (init "test!C1:E5") r')
    as (_ & _ & _ & _ & _ & _ & H).
  rewrite (H 2 0 E). split; reflexivity.
Defined.

(** X6. Every object is blank (all fields as [reset] leaves them) or
    valid (its text is not empty and the other fields are the ones read
    from it): the constructor builds such an object, and [set_a1], [update],
    the appends and reductions and [reshape] keep it such, whether they
    succeed or fail. *)
Theorem always_blank_or_valid :
  (forall s, Inv (init s))
  /\ (forall self, Inv self ->
      (forall s, Inv (fst (set_a1 self s)))
      /\ (forall sheet start_col start_row end_col end_row r' ok,
            update self sheet start_col start_row end_col end_row = Ok (r', ok) ->
            Inv r')
      /\ (forall n r' ok,
            append_rows self n = Ok (r', ok) \/ append_cols self n = Ok (r', ok)
            \/ reduce_rows self n = Ok (r', ok) \/ reduce_cols self n = Ok (r', ok) ->
            Inv r')
      /\ (forall rows cols r' ok, reshape self rows cols = Ok (r', ok) -> Inv r')).
Proof.
  split; [exact init_Inv|]. intros self Hself. repeat split.
  - intros s. now apply set_a1_Inv.
  - intros. eapply update_Inv; eassumption.
  - intros n r' ok [H | [H | [H | H]]].
    + apply (append_Inv self r' ok n); auto.
    + apply (append_Inv self r' ok n); auto.
    + apply (append_Inv self r' ok (- n)); auto.
    + apply (append_Inv self r' ok (- n)); auto.
  - intros. eapply reshape_Inv; eassumption.
Qed.

(** ** The parts of a valid object *)

(** X7. The fields of a valid object: each column is empty or a label,
    the cached indices are the ones [col_to_int] gives and lie between 0 and
    18278, no row is negative, the start column is empty exactly when the
    start row is 0, the columns are in order when both are there, and the
    title and the start column are not both empty. *)
Theorem valid_object_parts (r : A1) :
  Valid r ->
  (_start_col r = "" \/ label (_start_col r) = true)
  /\ (_end_col r = "" \/ label (_end_col r) = true)
  /\ _start_col_int r = col_to_int (_start_col r)
  /\ _end_col_int r = col_to_int (_end_col r)
  /\ 0 <= _start_col_int r <= GoogleSheetsMaxColumns
  /\ 0 <= _end_col_int r <= GoogleSheetsMaxColumns
  /\ 0 <= _start_row r /\ 0 <= _end_row r
  /\ (_start_col r = "" <-> _start_row r = 0)
  /\ (cols_bounded r = true -> _start_col_int r <= _end_col_int r)
  /\ (_sheet r <> "" \/ _start_col r <> "").
Proof.
  intros Hv. pose proof (Valid_dims_ok r Hv) as (Hsc & Hec & Hsr & Her & Hb & _).
  pose proof (Valid_unfold r Hv) as (Hd & He & Hsi & Hei).
  assert (Hrange : forall s, s = "" \/ label s = true ->
                     0 <= col_to_int s <= GoogleSheetsMaxColumns).
  { intros s [-> | H]; [vm_compute; split; discriminate|].
    pose proof (col_to_int_label s H). lia. }
  repeat split; auto; try (rewrite ?Hsi, ?Hei; now apply Hrange).
  - intros E. rewrite E in Hb. cbn in Hb. symmetry in Hb.
    now apply nonzero_false in Hb.
  - intros E. rewrite E in Hb. cbn in Hb. now apply truthy_false in Hb.
  - intros Hc. pose proof (Valid_col_order r Hv Hc) as Ho.
    rewrite Hsi, Hei. apply Z.geb_le in Ho. lia.
  - rewrite He in Hd. unfold valid_dimensions in Hd.
    destruct (_start_col r) as [|c s]; [|right; discriminate]. left.
    assert (Hz : nonzero (_start_row r) = false) by (now rewrite <- Hb).
    rewrite Hz in Hd. cbn [truthy negb andb] in Hd.
    apply negb_true_iff, orb_false_iff in Hd as [_ Hd].
    apply negb_false_iff in Hd. now apply truthy_true.
Qed.

Lemma valid_object_parts_witness :
  _start_col_int (init "test!4:ASC") <= _end_col_int (init "test!4:ASC")
  /\ 0 <= _end_col_int (init "test!4:ASC") <= GoogleSheetsMaxColumns.
Proof.
  destruct (valid_object_parts (init "test!4:ASC") (conj eq_refl eq_refl))
    as (_ & _ & _ & _ & _ & Hr & _ & _ & _ & Ho & _).
  split; [apply Ho; reflexivity | exact Hr].
Defined.

Lemma always_blank_or_valid_witness :
  Inv (init "test!:d3") /\ Inv (fst (set_a1 (init "test") "x!A1:B2")).
Proof.
  destruct always_blank_or_valid as [Hinit Hkeep].
  split; [apply Hinit|].
  destruct (Hkeep (init "test") (Hinit "test")) as (Hset & _).
  apply Hset.
Defined.

(** ** Lists of ranges *)

Lemma str_init (s : string) : valid (init s) = true -> str (init s) = s.
Proof.
  intros Hv. pose proof Hv as Hd. rewrite valid_init in Hd.
  unfold str. unfold valid in Hv. rewrite Hv. unfold init.
  destruct (truthy s) eqn:E.
  - rewrite set_a1_state, Hd.
    now destruct (extract_a1 s) as [[[[t sc] sr] ec] er].
  - apply truthy_false in E. subst. discriminate.
Qed.

Lemma init_str (o : A1) : Valid o -> init (str o) = o.
Proof.
  intros [Hv Hi]. unfold str. unfold valid in Hv. now rewrite Hv.
Qed.

(** X8. [to_str_list] and [to_a1_list] on a list keep its length; on
    texts that parse, and on valid objects, each undoes the other; an
    invalid text comes back as ["<invalid>"]. *)
Theorem list_conversions (strs : list string) (objs : list A1) :
  (forall vs, List.length (to_str_list (Many vs)) = List.length vs
              /\ List.length (to_a1_list (Many vs)) = List.length vs)
  /\ (Forall (fun s => valid (init s) = true) strs ->
      to_str_list (Many (map AObj (to_a1_list (Many (map AStr strs))))) = strs)
  /\ (Forall Valid objs ->
      to_a1_list (Many (map AStr (to_str_list (Many (map AObj objs))))) = objs)
  /\ (forall s, valid (init s) = false ->
      to_str_list (Many (map AObj (to_a1_list (One (AStr s))))) = ["<invalid>"]).
Proof.
  split; [|split; [|split]].
  - intros vs. cbn [to_str_list to_a1_list]. now rewrite !length_map.
  - intros H. cbn [to_str_list to_a1_list]. rewrite !map_map. cbn [item_a1 item_str].
    induction H as [|s l Hs _ IH]; [reflexivity|].
    cbn [map]. now rewrite IH, str_init.
  - intros H. cbn [to_str_list to_a1_list]. rewrite !map_map. cbn [item_a1 item_str].
    induction H as [|o l Ho _ IH]; [reflexivity|].
    cbn [map]. now rewrite IH, init_str.
  - intros s Hs. cbn. unfold str. unfold valid in Hs. now rewrite Hs.
Qed.

Lemma list_conversions_witness :
  to_str_list (Many (map AObj (to_a1_list (Many (map AStr ["test!A1:B2"; "x"])))))
  = ["test!A1:B2"; "x"]
  /\ to_a1_list (Many (map AStr (to_str_list (Many (map AObj [init "test!4:ASC"])))))
     = [init "test!4:ASC"].
Proof.
  destruct (list_conversions ["test!A1:B2"; "x"] [init "test!4:ASC"])
    as (_ & Hs & Ho & _).
  split.
  - apply Hs. repeat constructor.
  - apply Ho. repeat constructor.
Defined.

(** ** Containment composes *)

(** X9. [contains] composes: if [a] contains [b] and [b] contains [c],
    then [a] contains [c]. *)
Theorem contains_transitive (a b c : A1) :
  contains a (AObj b) = true -> contains b (AObj c) = true ->
  contains a (AObj c) = true.
Proof.
  unfold contains, bounded.
  destruct (valid b) eqn:Vb; [|discriminate].
  destruct (valid c) eqn:Vc; [|discriminate].
  unfold valid in Vb. rewrite Vb.
  destruct (truthy (_a1 a)) eqn:Va; [|discriminate]. cbn [andb].
  destruct (String.eqb_spec (_sheet b) (_sheet a)) as [Eba|]; [|discriminate].
  destruct (String.eqb_spec (_sheet c) (_sheet b)) as [Ecb|]; [|discriminate].
  rewrite Ecb, Eba, String.eqb_refl.
  destruct (rows_bounded a), (cols_bounded a), (rows_bounded b), (cols_bounded b),
    (rows_bounded c), (cols_bounded c); cbn [andb]; try discriminate; try reflexivity;
    rewrite ?andb_true_iff, ?Z.geb_le, ?Z.leb_le; intros; lia.
Qed.

Lemma contains_transitive_witness :
  contains (init "test!B:AZ") (AObj (init "test!E7:F9")) = true.
Proof.
  apply (contains_transitive (init "test!B:AZ") (init "test!C4:AL22")
           (init "test!E7:F9")); reflexivity.
Defined.

(** ** Titles that need quotes *)

Lemma alpha_word : forall c, alpha c = true -> word c = true.
Proof. by_cases_on_char. Qed.

Lemma word_not_quote :
  forall c, word c = true -> Ascii.eqb c "'" || Ascii.eqb c dquote = false.
Proof. by_cases_on_char. Qed.

Lemma bare_title_word (t : string) :
  matches bare_title_re t = true -> all dot t = true -> all word t = true.
Proof.
  intros Hm Hd. apply matches_iff in Hm as (u & rest & g & -> & H).
  unfold bare_title_re in H. cbn [den] in H.
  destruct H as (u1 & u2 & g1 & -> & (Ha & _) & u3 & u4 & g2 & -> & (Hw & _) & He).
  destruct He as (-> & _ & [-> | ->]).
  - rewrite !app_nil_r, all_app.
    now rewrite (all_impl alpha word u1 alpha_word Ha), Hw.
  - rewrite !all_app in Hd. cbn in Hd. rewrite !andb_false_r in Hd. discriminate.
Qed.

Lemma raw_title_quoted (t : string) :
  title t \/ raw_title t ->
  matches _a1_sheet_re t = true
  /\ exists t', quoted_title t = Ok t' /\ title t'.
Proof.
  intros [Ht | Hr].
  - split; [now apply title_matches | now apply quoted_title_title].
  - destruct t as [|c t]; [contradiction|]. destruct Hr as [Hc Hd]. split.
    + apply matches_iff. exists (String c ""), t, []. split; [reflexivity|].
      unfold _a1_sheet_re, title_re. cbn [den].
      exists "", (String c ""), []. split; [reflexivity|].
      split; [cbn; repeat split; lia|]. left. cbn. rewrite Hc.
      repeat split. lia.
    + unfold quoted_title. rewrite (word_not_quote c Hc).
      destruct (matches bare_title_re (String c t)) eqn:Hb.
      * eexists. split; [reflexivity|]. left. split; [discriminate|].
        now apply bare_title_word.
      * eexists. split; [reflexivity|]. right; left.
        exists (String c t). repeat split; [discriminate | assumption].
Qed.

Lemma quoted_title_again (t t' : string) :
  quoted_title t = Ok t' -> quoted_title t' = Ok t'.
Proof.
  unfold quoted_title at 1. destruct t as [|c t]; [discriminate|].
  destruct (Ascii.eqb c "'" || Ascii.eqb c dquote) eqn:Hq.
  - intros E. injection E as <-. unfold quoted_title. now rewrite Hq.
  - destruct (matches bare_title_re (String c t)) eqn:Hb;
      intros E; injection E as <-.
    + unfold quoted_title. now rewrite Hq, Hb.
    + unfold quoted_title. now rewrite Ascii.eqb_refl, orb_true_r.
Qed.

Lemma generate_from_title (t sc : string) (sr : Z) (ec : string) (er : Z) :
  title t \/ raw_title t -> label sc = true -> 0 < sr -> label ec = true ->
  exists t',
    quoted_title t = Ok t' /\ title t'
    /\ generate_a1 t (ColStr sc) sr (ColStr ec) er = Ok (full_text t' sc sr ec er).
Proof.
  intros Ht Hsc Hsr Hec. unfold generate_a1.
  destruct (raw_title_quoted t Ht) as (-> & t' & E & Ht'). rewrite E. cbn [bind].
  exists t'. split; [reflexivity|]. split; [assumption|].
  cbn [col_truthy col_text]. rewrite (label_truthy sc Hsc), (label_truthy ec Hec).
  cbn [bind]. rewrite (label_matches sc Hsc), (label_matches ec Hec).
  unfold with_bang. rewrite (title_truthy t' Ht'). rewrite !with_row_text.
  rewrite (row_text_pos sr Hsr). unfold full_text.
  rewrite !app_assoc. reflexivity.
Qed.

(** X4. From parts to text and back: with a title (quoted, bare, or one
    that starts with a word character and needs quotes), two column labels,
    a start row above 0 and an end row of 0 or more, [generate_a1] returns a
    text whose title is the given one, or the given one between double
    quotes; the constructor reads from that text exactly these parts when
    the columns are in order, and leaves the object blank when they are
    not. *)
Theorem generate_then_parse (t sc : string) (sr : Z) (ec : string) (er : Z) :
  title t \/ raw_title t ->
  label sc = true -> 0 < sr -> label ec = true -> 0 <= er ->
  exists G t',
    generate_a1 t (ColStr sc) sr (ColStr ec) er = Ok G
    /\ quoted_title t = Ok t'
    /\ (t' = t \/ t' = String dquote (t ++ String dquote ""))
    /\ init G =
       if col_to_int sc <=? col_to_int ec then
         mkA1 G t' sc ec (col_to_int sc) (col_to_int ec) sr er
       else reset.
Proof.
  intros Ht Hsc Hsr Hec Her.
  destruct (generate_from_title t sc sr ec er Ht Hsc Hsr Hec)
    as (t' & Hq & Ht' & HG).
  exists (full_text t' sc sr ec er), t'.
  split; [exact HG|]. split; [exact Hq|].
  split; [now apply quoted_title_cases|].
  unfold init. rewrite (full_text_truthy t' sc sr ec er Ht').
  rewrite (set_a1_full reset t' sc sr ec er) by assumption.
  rewrite Z.geb_leb. now destruct (col_to_int sc <=? col_to_int ec).
Qed.

Lemma generate_then_parse_witness :
  exists G,
    generate_a1 "my sheet" (ColStr "C") 4 (ColStr "BX") 0 = Ok G
    /\ init G = mkA1 G (String dquote ("my sheet" ++ String dquote "")) "C" "BX" 3 76 4 0.
Proof.
  destruct (generate_then_parse "my sheet" "C" 4 "BX" 0)
    as (G & t' & HG & Hq & _ & Hi).
  - right. split; reflexivity.
  - reflexivity.
  - reflexivity.
  - reflexivity.
  - discriminate.
  - exists G. split; [exact HG|].
    injection Hq as <-. exact Hi.
Defined.

(** [update] once the parts are known: the text is generated from the
    quoted title and parsed again. *)
Lemma update_from_title (self : A1) (t sc : string) (sr : Z) (ec : string) (er : Z) :
  title t \/ raw_title t -> label sc = true -> 0 < sr -> label ec = true ->
  0 <= er -> col_to_int sc <= col_to_int ec ->
  exists t',
    quoted_title t = Ok t' /\ title t'
    /\ (a1 <- generate_a1 t (ColStr sc) sr (ColStr ec) er ;;
        if truthy a1 then Ok (set_a1 self a1) else Ok (self, false))
       = Ok (mkA1 (full_text t' sc sr ec er) t' sc ec
               (col_to_int sc) (col_to_int ec) sr er, true)
    /\ Valid (mkA1 (full_text t' sc sr ec er) t' sc ec
                (col_to_int sc) (col_to_int ec) sr er).
Proof.
  intros Ht Hsc Hsr Hec Her Hord.
  destruct (generate_from_title t sc sr ec er Ht Hsc Hsr Hec) as (t' & Hq & Ht' & ->).
  exists t'. split; [assumption|]. split; [assumption|]. cbn [bind].
  rewrite (full_text_truthy t' sc sr ec er Ht').
  rewrite (set_a1_full self t' sc sr ec er) by assumption.
  assert (Hge : (col_to_int ec >=? col_to_int sc) = true) by (apply Z.geb_le; lia).
  rewrite Hge. split; [reflexivity|].
  apply Valid_intro; auto using full_text_truthy, extract_full.
  unfold valid_dimensions.
  now rewrite (label_truthy sc Hsc), (label_truthy ec Hec).
Qed.

(** ** Witnesses of the codec theorems *)

Lemma col_to_int_injective_witness :
  1 <= col_to_int "BX" <= GoogleSheetsMaxColumns.
Proof.
  exact (proj1 (col_to_int_injective "BX" "C" eq_refl eq_refl)).
Defined.

Lemma codec_round_trip_without_Z_witness :
  int_to_col (col_to_int "BX") = Ok "BX".
Proof.
  exact (proj1 (codec_round_trip_without_Z "BX" eq_refl eq_refl)).
Defined.

Lemma int_to_col_nonnegative_witness :
  exists lbl, int_to_col 76 = Ok lbl /\ cols lbl = true
    /\ (lbl = "" <-> 76 = 0 \/ GoogleSheetsMaxColumns < 76).
Proof.
  apply (int_to_col_nonnegative 76). lia.
Defined.

(** ** [set_a1] against the constructor *)

Lemma set_a1_fresh (self : A1) (s : string) :
  set_a1 self s = if valid (init s) then (init s, true) else (self, false).
Proof.
  rewrite valid_init, set_a1_state.
  destruct (valid_dimensions (extract_a1 s)) eqn:Hd; [|reflexivity].
  destruct s as [|c s]; [discriminate Hd|].
  unfold init. cbn [truthy]. rewrite set_a1_state, Hd.
  now destruct (extract_a1 (String c s)) as [[[[t sc] sr] ec] er].
Qed.

(** ** Assigning a text *)

(** X12. [set_a1] against the constructor: on a text the constructor
    accepts, the object becomes the one the constructor builds from it,
    whatever it held before; on any other text it is unchanged, and the
    setter of [a1] raises [ValueError]. *)
Theorem assigning_a_text (self : A1) (s : string) :
  set_a1 self s = (if valid (init s) then (init s, true) else (self, false))
  /\ a1_setter self s = (if valid (init s) then Ok (init s) else Raise ValueError).
Proof.
  unfold a1_setter. rewrite set_a1_fresh.
  split; now destruct (valid (init s)).
Qed.

(** ** Texts that [_a1_re] does not match *)

Lemma sheet_only_text (s w : string) (g : groups) :
  re_match _a1_sheet_only_re s = Some (w, g) -> s = w \/ s = w ++ newline.
Proof.
  unfold re_match. intros H.
  apply run_sound in H as (u & rest & g' & -> & H & E).
  rewrite consumed_app in E. injection E as <- _.
  unfold _a1_sheet_only_re in H. cbn [den] in H.
  destruct H as (u1 & u2 & g1 & -> & _ & (-> & _ & [-> | ->])).
  - left. now rewrite !app_nil_r.
  - right. now rewrite !app_nil_r.
Qed.

(** X13. A text that [valid_a1] refuses gives an object without bounds:
    no columns, no rows; when that object is valid its title is the whole
    text, leading blanks included, up to a final line break. *)
Theorem unmatched_text_is_title_only (s : string) :
  valid_a1 s = false ->
  _start_col (init s) = "" /\ _start_row (init s) = 0
  /\ _end_col (init s) = "" /\ _end_row (init s) = 0
  /\ _start_col_int (init s) = 0 /\ _end_col_int (init s) = 0
  /\ (valid (init s) = true ->
      _sheet (init s) <> ""
      /\ (s = _sheet (init s) \/ s = _sheet (init s) ++ newline)).
Proof.
  unfold valid_a1, matches. intros Hm.
  destruct (re_match _a1_re s) as [[w g]|] eqn:E; [discriminate|]. clear Hm.
  assert (He : extract_a1 s =
               match re_match _a1_sheet_only_re s with
               | Some (whole, _) => (whole, "", 0, "", 0)
               | None => ("", "", 0, "", 0)
               end) by (unfold extract_a1; now rewrite E).
  unfold init. destruct (truthy s) eqn:Hs;
    [|repeat split; try reflexivity; discriminate].
  rewrite set_a1_state, He.
  destruct (re_match _a1_sheet_only_re s) as [[w g]|] eqn:E2.
  - pose proof (sheet_only_whole s w g E2) as Hw.
    pose proof (sheet_only_text s w g E2) as Hsw.
    apply truthy_true in Hw. unfold valid_dimensions. cbn [truthy nonzero negb andb orb Z.eqb].
    rewrite Hw. cbn. repeat split; auto. now apply truthy_true.
  - cbn. repeat split; try reflexivity; discriminate.
Qed.

Lemma unmatched_text_is_title_only_witness :
  _start_col (init " 'my sheet'") = "" /\ _sheet (init " 'my sheet'") = " 'my sheet'".
Proof.
  destruct (unmatched_text_is_title_only " 'my sheet'" eq_refl)
    as (Hsc & _ & _ & _ & _ & _ & Ht).
  split; [exact Hsc|].
  destruct (Ht eq_refl) as [_ [H | H]]; [now symmetry|].
  exfalso. apply (f_equal String.length) in H. rewrite length_app in H.
  vm_compute in H. discriminate H.
Defined.

(** ** Containment and size *)

(** X10. A contained valid range is no larger: it has no more rows than a
    container with bounded rows, no more columns than a container with
    bounded columns, and, when the container is fully bounded and the
    contained rows do not run backwards, no more cells. *)
Theorem contains_no_larger (a b : A1) :
  Valid b -> contains a (AObj b) = true ->
  (rows_bounded a = true -> num_rows b <= num_rows a)
  /\ (cols_bounded a = true -> 0 <= num_cols b <= num_cols a)
  /\ (bounded a = true -> _start_row b <= _end_row b ->
      0 <= __len__ b <= __len__ a).
Proof.
  intros Hb. unfold contains, __len__, num_rows, num_cols, bounded.
  destruct (valid b) eqn:Vb; [|discriminate].
  destruct (truthy (_a1 a)); [|discriminate]. cbn [andb].
  destruct (String.eqb (_sheet b) (_sheet a)); [|discriminate].
  assert (Ho : cols_bounded b = true -> _start_col_int b <= _end_col_int b).
  { intros Hc. pose proof (Valid_col_order b Hb Hc) as Ho.
    apply Valid_unfold in Hb as (_ & _ & -> & ->). apply Z.geb_le in Ho. lia. }
  destruct (rows_bounded a), (cols_bounded a), (rows_bounded b), (cols_bounded b);
    cbn [andb]; try discriminate;
    rewrite ?andb_true_iff, ?Z.geb_le, ?Z.leb_le; intros H;
    (split; [|split]); intros; try discriminate; try specialize (Ho eq_refl);
    try lia; try nia.
Qed.

Lemma contains_no_larger_witness :
  0 <= __len__ (init "test!E7:Z22") <= __len__ (init "test!C4:AL22").
Proof.
  destruct (contains_no_larger (init "test!C4:AL22") (init "test!E7:Z22")
              (conj eq_refl eq_refl) eq_refl) as (_ & _ & H).
  apply H; [reflexivity | discriminate].
Defined.

(** X11. Two ranges that contain each other have the same title and are
    bounded in the same dimensions, with the same bounds there; when fully
    bounded they have the same coordinates and the same number of cells. *)
Theorem contains_both_ways (a b : A1) :
  contains a (AObj b) = true -> contains b (AObj a) = true ->
  _sheet a = _sheet b
  /\ rows_bounded a = rows_bounded b /\ cols_bounded a = cols_bounded b
  /\ (rows_bounded a = true ->
      _start_row a = _start_row b /\ _end_row a = _end_row b)
  /\ (cols_bounded a = true ->
      _start_col_int a = _start_col_int b /\ _end_col_int a = _end_col_int b)
  /\ (bounded a = true -> dimensions a = dimensions b /\ __len__ a = __len__ b).
Proof.
  unfold contains, dimensions, __len__, bounded, valid.
  destruct (truthy (_a1 a)); [|now rewrite andb_false_r].
  destruct (truthy (_a1 b)); [|discriminate]. cbn [andb].
  destruct (String.eqb_spec (_sheet b) (_sheet a)) as [Eba|]; [|discriminate].
  rewrite Eba, String.eqb_refl.
  destruct (rows_bounded a), (cols_bounded a), (rows_bounded b), (cols_bounded b);
    cbn [andb]; try discriminate;
    rewrite ?andb_true_iff, ?Z.geb_le, ?Z.leb_le; intros H1 H2;
    repeat split; try reflexivity; try discriminate; try lia;
    try (f_equal; [f_equal; [f_equal|]|]; lia); try (f_equal; lia).
Qed.

Lemma contains_both_ways_witness :
  dimensions (init "test!C4:AL22") = dimensions (init " test!C04:AL22 ").
Proof.
  destruct (contains_both_ways (init "test!C4:AL22") (init " test!C04:AL22 ")
              eq_refl eq_refl) as (_ & _ & _ & _ & _ & H).
  exact (proj1 (H eq_refl)).
Defined.

(** ** [reshape] where it works *)

(** X14. [reshape] where it succeeds: on any object whose title is a
    title, with [rows] 0 or more and [cols] an index above 0 that the codec
    gives its own label, it sets the start to A1, the end to the label of
    [cols] and the row [rows], keeps the title (quoted by [generate_a1]),
    and leaves a valid object. *)
Theorem reshape_to_grid (self : A1) (rows cols : Z) :
  title (_sheet self) \/ raw_title (_sheet self) ->
  0 <= rows -> 0 < cols -> codec_ok cols = true ->
  exists t' lbl,
    quoted_title (_sheet self) = Ok t' /\ int_to_col cols = Ok lbl
    /\ reshape self rows cols
       = Ok (mkA1 (full_text t' "A" 1 lbl rows) t' "A" lbl 1 cols 1 rows, true)
    /\ Valid (mkA1 (full_text t' "A" 1 lbl rows) t' "A" lbl 1 cols 1 rows).
Proof.
  intros Ht Hrows Hcols Hok.
  destruct (codec_ok_label cols Hcols Hok) as (lbl & Hlbl & Hl & Hval).
  destruct (update_from_title self (_sheet self) "A" 1 lbl rows Ht eq_refl
              ltac:(lia) Hl Hrows)
    as (t' & Hq & Ht' & Hu & HV).
  { change (col_to_int "A") with 1. lia. }
  change (col_to_int "A") with 1 in Hu, HV. rewrite Hval in Hu, HV.
  exists t', lbl. split; [exact Hq|]. split; [exact Hlbl|]. split; [|exact HV].
  unfold reshape.
  replace ((rows >=? 0) && (cols >=? 0)) with true
    by (symmetry; apply andb_true_intro; split; apply Z.geb_le; lia).
  unfold update. cbn [from col_text]. rewrite Hlbl.
  change (int_to_col 1) with (Ok "A"). cbn [bind]. exact Hu.
Qed.

Lemma reshape_to_grid_witness :
  reshape (init "'my sheet'") 0 28 = Ok (init "'my sheet'!A1:AB", true).
Proof.
  destruct (reshape_to_grid (init "'my sheet'") 0 28)
    as (t' & lbl & Hq & Hl & Hr & _).
  - left. right. right. exists "my sheet".
    split; [reflexivity | split; [discriminate | reflexivity]].
  - lia.
  - lia.
  - reflexivity.
  - injection Hq as <-. injection Hl as <-. exact Hr.
Defined.

(** ** Moving the end of a range, and moving it back *)

Lemma update_parts (self : A1) (t sc : string) (sr : Z) (ec : string) (er : Z) :
  title t \/ raw_title t -> label sc = true -> 0 < sr -> label ec = true ->
  0 <= er -> col_to_int sc <= col_to_int ec ->
  exists t',
    quoted_title t = Ok t' /\ quoted_title t' = Ok t' /\ title t'
    /\ update self (Some t) (Some (ColStr sc)) (Some sr) (Some (ColStr ec)) (Some er)
       = Ok (from_parts t' sc sr ec er, true)
    /\ Valid (from_parts t' sc sr ec er).
Proof.
  intros Ht Hsc Hsr Hec Her Hord.
  destruct (update_from_title self t sc sr ec er Ht Hsc Hsr Hec Her Hord)
    as (t' & Hq & Ht' & Hu & HV).
  exists t'. split; [exact Hq|]. split; [now apply quoted_title_again with t|].
  split; [exact Ht'|]. split; [exact Hu | exact HV].
Qed.

Lemma from_parts_fields (t sc : string) (sr : Z) (ec : string) (er : Z) :
  label sc = true -> 0 < sr -> label ec = true ->
  _sheet (from_parts t sc sr ec er) = t
  /\ _start_col (from_parts t sc sr ec er) = sc
  /\ _start_row (from_parts t sc sr ec er) = sr
  /\ _end_col (from_parts t sc sr ec er) = ec
  /\ _end_row (from_parts t sc sr ec er) = er
  /\ cols_bounded (from_parts t sc sr ec er) = true
  /\ rows_bounded (from_parts t sc sr ec er) = nonzero er.
Proof.
  intros Hsc Hsr Hec. unfold cols_bounded, rows_bounded. cbn.
  rewrite (label_truthy sc Hsc), (label_truthy ec Hec).
  replace (nonzero sr) with true by (symmetry; apply nonzero_true; lia).
  repeat split.
Qed.

(** A valid object with both columns and a title, and the object [update]
    makes of its parts. *)
Lemma Valid_parts (r : A1) :
  Valid r -> cols_bounded r = true -> _sheet r <> "" ->
  exists t',
    quoted_title (_sheet r) = Ok t' /\ quoted_title t' = Ok t' /\ title t'
    /\ label (_start_col r) = true /\ 0 < _start_row r
    /\ label (_end_col r) = true /\ 0 <= _end_row r
    /\ col_to_int (_start_col r) <= col_to_int (_end_col r)
    /\ _start_col_int r = col_to_int (_start_col r)
    /\ _end_col_int r = col_to_int (_end_col r).
Proof.
  intros Hv Hc Hs.
  destruct (Valid_cols_bounded r Hv Hc Hs) as (Ht & Hsc & Hsr & Hec & Her).
  pose proof (Valid_col_order r Hv Hc) as Hord. apply Z.geb_le in Hord.
  apply Valid_unfold in Hv as (_ & _ & Hsi & Hei).
  destruct (quoted_title_title (_sheet r) Ht) as (t' & Hq & Ht').
  exists t'. repeat split; auto; try lia. now apply quoted_title_again with (_sheet r).
Qed.

Lemma append_rows_parts (self : A1) (t t' sc : string) (sr : Z) (ec : string)
    (er n : Z) :
  title t -> quoted_title t = Ok t' -> label sc = true -> 0 < sr ->
  label ec = true -> 0 < er -> col_to_int sc <= col_to_int ec ->
  _sheet self = t -> _start_col self = sc -> _start_row self = sr ->
  _end_col self = ec -> _end_row self = er ->
  n <> 0 -> 0 < er + n ->
  append_rows self n = Ok (from_parts t' sc sr ec (er + n), true).
Proof.
  intros Ht Hq Hsc Hsr Hec Her Hord Es Esc Esr Eec Eer Hn Hnew.
  unfold append_rows, rows_bounded. rewrite Esr, Eer.
  replace (nonzero sr) with true by (symmetry; apply nonzero_true; lia).
  replace (nonzero er) with true by (symmetry; apply nonzero_true; lia).
  replace (nonzero n) with true by (symmetry; now apply nonzero_true).
  cbn [andb]. destruct (Z.gtb_spec (er + n) 0) as [_|]; [|lia].
  unfold update. cbn [from bind]. rewrite Es, Esc, Esr, Eec.
  destruct (update_from_title self t sc sr ec (er + n) (or_introl Ht) Hsc Hsr Hec
              ltac:(lia) Hord) as (t2 & Hq' & _ & Hu & _).
  rewrite Hq in Hq'. injection Hq' as <-. exact Hu.
Qed.

Lemma append_cols_parts (self : A1) (t t' sc : string) (sr : Z) (ec : string)
    (er n : Z) (lbl : string) :
  title t -> quoted_title t = Ok t' -> label sc = true -> 0 < sr ->
  label ec = true -> 0 <= er ->
  _sheet self = t -> _start_col self = sc -> _start_row self = sr ->
  _end_col self = ec -> _end_row self = er ->
  n <> 0 -> 0 < col_to_int ec + n <= GoogleSheetsMaxColumns ->
  int_to_col (col_to_int ec + n) = Ok lbl -> label lbl = true ->
  col_to_int sc <= col_to_int lbl ->
  append_cols self n = Ok (from_parts t' sc sr lbl er, true).
Proof.
  intros Ht Hq Hsc Hsr Hec Her Es Esc Esr Eec Eer Hn Hnew Hlbl Hl Hord.
  unfold append_cols, cols_bounded. rewrite Esc, Eec.
  rewrite (label_truthy sc Hsc), (label_truthy ec Hec).
  replace (nonzero n) with true by (symmetry; now apply nonzero_true).
  cbn [andb].
  replace ((col_to_int ec + n >? 0) && (col_to_int ec + n <=? GoogleSheetsMaxColumns))
    with true
    by (symmetry; apply andb_true_intro; split;
        [apply Z.gtb_lt | apply Z.leb_le]; lia).
  unfold update. cbn [from bind col_text]. rewrite Hlbl. cbn [bind].
  rewrite Es, Esc, Esr, Eer.
  destruct (update_from_title self t sc sr lbl er (or_introl Ht) Hsc Hsr Hl
              Her Hord) as (t2 & Hq' & _ & Hu & _).
  rewrite Hq in Hq'. injection Hq' as <-. exact Hu.
Qed.

Lemma update_nothing (r : A1) (t' : string) :
  Valid r -> cols_bounded r = true -> _sheet r <> "" ->
  quoted_title (_sheet r) = Ok t' ->
  update r None None None None None
  = Ok (from_parts t' (_start_col r) (_start_row r) (_end_col r) (_end_row r), true)
  /\ Valid (from_parts t' (_start_col r) (_start_row r) (_end_col r) (_end_row r)).
Proof.
  intros Hv Hc Hs Hq.
  destruct (Valid_parts r Hv Hc Hs)
    as (t2 & Hq2 & _ & _ & Hsc & Hsr & Hec & Her & Hord & _).
  destruct (Valid_cols_bounded r Hv Hc Hs) as (Ht & _).
  destruct (update_from_title r (_sheet r) (_start_col r) (_start_row r)
              (_end_col r) (_end_row r) (or_introl Ht) Hsc Hsr Hec Her Hord)
    as (t3 & Hq3 & _ & Hu & HV).
  rewrite Hq in Hq3. injection Hq3 as <-. split; [exact Hu | exact HV].
Qed.

(** X15. [+= n] then [-= n] on a valid, fully bounded object with a
    title, [n] not 0 and the new end row above 0: the end row moves by [n]
    and back; the object is then the one [update()] without arguments
    gives, with the coordinates and the columns of the start; from there
    the two steps lead back to the same objects. *)
Theorem rows_add_then_sub (r : A1) (n : Z) :
  Valid r -> bounded r = true -> _sheet r <> "" -> n <> 0 ->
  0 < _end_row r + n ->
  exists r1 r2,
    __iadd__ r n = Ok r1 /\ __isub__ r1 n = Ok r2 /\ __iadd__ r2 n = Ok r1
    /\ update r None None None None None = Ok (r2, true)
    /\ _end_row r1 = _end_row r + n
    /\ dimensions r2 = dimensions r
    /\ _start_col r2 = _start_col r /\ _end_col r2 = _end_col r
    /\ Valid r2.
Proof.
  intros Hv Hb Hs Hn Hnew.
  unfold bounded in Hb. apply andb_prop in Hb as [Hrows Hcols].
  destruct (Valid_parts r Hv Hcols Hs)
    as (t' & Hq & Hq' & Ht' & Hsc & Hsr & Hec & Her & Hord & Hsi & Hei).
  destruct (Valid_cols_bounded r Hv Hcols Hs) as (Ht & _).
  assert (Her' : 0 < _end_row r).
  { unfold rows_bounded in Hrows. apply andb_prop in Hrows as [_ Hnz].
    apply nonzero_true in Hnz. lia. }
  destruct (update_nothing r t' Hv Hcols Hs Hq) as (Hu & HV2).
  set (sc := _start_col r) in *. set (sr := _start_row r) in *.
  set (ec := _end_col r) in *. set (er := _end_row r) in *.
  exists (from_parts t' sc sr ec (er + n)), (from_parts t' sc sr ec er).
  assert (H1 : append_rows r n = Ok (from_parts t' sc sr ec (er + n), true))
    by (apply (append_rows_parts r (_sheet r) t' sc sr ec er n); auto).
  assert (H2 : append_rows (from_parts t' sc sr ec (er + n)) (- n)
               = Ok (from_parts t' sc sr ec er, true)).
  { replace er with (er + n + - n) at 2 by lia.
    apply (append_rows_parts _ t' t' sc sr ec (er + n) (- n)); auto; lia. }
  assert (H3 : append_rows (from_parts t' sc sr ec er) n
               = Ok (from_parts t' sc sr ec (er + n), true))
    by (apply (append_rows_parts _ t' t' sc sr ec er n); auto).
  unfold __iadd__, __isub__, reduce_rows. rewrite H1, H2, H3. cbn [bind fst].
  split; [reflexivity|]. split; [reflexivity|]. split; [reflexivity|].
  split; [exact Hu|]. split; [reflexivity|].
  split; [unfold dimensions; cbn; now rewrite Hsi, Hei|].
  split; [reflexivity|]. split; [reflexivity | exact HV2].
Qed.

Lemma rows_add_then_sub_witness :
  exists r1,
    __iadd__ (init " test!C4:AB25") 2 = Ok r1 /\ _end_row r1 = 27
    /\ __isub__ r1 2 = Ok (init "test!C4:AB25").
Proof.
  destruct (rows_add_then_sub (init " test!C4:AB25") 2)
    as (r1 & r2 & H1 & H2 & _ & Hu & He & _).
  - split; reflexivity.
  - reflexivity.
  - discriminate.
  - discriminate.
  - reflexivity.
  - assert (E : update (init " test!C4:AB25") None None None None None
                 = Ok (init "test!C4:AB25", true)) by (vm_compute; reflexivity).
    rewrite E in Hu. injection Hu as <-.
    exists r1. split; [exact H1|]. split; [exact He | exact H2].
Defined.

(** X16. [*= n] then [/= n] on a valid object with both columns and a
    title, when the new end index lies between the start index and 18278
    and the codec gives both the old and the new end index their own
    labels: the end index moves by [n] and back; the object is then the one
    [update()] without arguments gives, with the coordinates and the columns
    of the start. *)
Theorem cols_mul_then_div (r : A1) (n : Z) :
  Valid r -> cols_bounded r = true -> _sheet r <> "" -> n <> 0 ->
  _start_col_int r <= _end_col_int r + n <= GoogleSheetsMaxColumns ->
  codec_ok (_end_col_int r + n) = true -> codec_ok (_end_col_int r) = true ->
  exists r1 r2,
    __imul__ r n = Ok r1 /\ __itruediv__ r1 n = Ok r2 /\ __imul__ r2 n = Ok r1
    /\ update r None None None None None = Ok (r2, true)
    /\ _end_col_int r1 = _end_col_int r + n
    /\ dimensions r2 = dimensions r
    /\ _start_col r2 = _start_col r /\ _end_col r2 = _end_col r
    /\ Valid r2.
Proof.
  intros Hv Hcols Hs Hn Hnew Hok1 Hok0.
  destruct (Valid_parts r Hv Hcols Hs)
    as (t' & Hq & Hq' & Ht' & Hsc & Hsr & Hec & Her & Hord & Hsi & Hei).
  destruct (Valid_cols_bounded r Hv Hcols Hs) as (Ht & _).
  destruct (update_nothing r t' Hv Hcols Hs Hq) as (Hu & HV2).
  pose proof (col_to_int_label _ Hsc) as Hsc1.
  pose proof (col_to_int_label _ Hec) as Hec1.
  rewrite Hsi, Hei in Hnew. rewrite Hei in Hok1, Hok0.
  assert (Hp1 : 0 < col_to_int (_end_col r) + n) by lia.
  assert (Hp0 : 0 < col_to_int (_end_col r)) by lia.
  destruct (codec_ok_label _ Hp1 Hok1) as (lbl & Hlbl & Hl & Hval).
  destruct (codec_ok_label _ Hp0 Hok0) as (ec' & Hback & Hl' & Hval').
  assert (ec' = _end_col r) as -> by (now apply col_to_int_inj).
  set (sc := _start_col r) in *. set (sr := _start_row r) in *.
  set (ec := _end_col r) in *. set (er := _end_row r) in *.
  exists (from_parts t' sc sr lbl er), (from_parts t' sc sr ec er).
  assert (H1 : append_cols r n = Ok (from_parts t' sc sr lbl er, true))
    by (apply (append_cols_parts r (_sheet r) t' sc sr ec er n lbl); auto; lia).
  assert (H2 : append_cols (from_parts t' sc sr lbl er) (- n)
               = Ok (from_parts t' sc sr ec er, true)).
  { apply (append_cols_parts _ t' t' sc sr lbl er (- n) ec); auto; try lia.
    rewrite Hval. now replace (col_to_int ec + n + - n) with (col_to_int ec) by lia. }
  assert (H3 : append_cols (from_parts t' sc sr ec er) n
               = Ok (from_parts t' sc sr lbl er, true))
    by (apply (append_cols_parts _ t' t' sc sr ec er n lbl); auto; lia).
  unfold __imul__, __itruediv__, reduce_cols. rewrite H1, H2, H3. cbn [bind fst].
  split; [reflexivity|]. split; [reflexivity|]. split; [reflexivity|].
  split; [exact Hu|]. split; [cbn; now rewrite Hval, Hei|].
  split; [unfold dimensions; cbn; now rewrite Hsi, Hei|].
  split; [reflexivity|]. split; [reflexivity | exact HV2].
Qed.

Lemma cols_mul_then_div_witness :
  exists r1,
    __imul__ (init "test!C4:AB22") 10 = Ok r1 /\ _end_col_int r1 = 38
    /\ __itruediv__ r1 10 = Ok (init "test!C4:AB22").
Proof.
  destruct (cols_mul_then_div (init "test!C4:AB22") 10)
    as (r1 & r2 & H1 & H2 & _ & Hu & He & _).
  - split; reflexivity.
  - reflexivity.
  - discriminate.
  - discriminate.
  - split; discriminate.
  - reflexivity.
  - reflexivity.
  - assert (E : update (init "test!C4:AB22") None None None None None
                 = Ok (init "test!C4:AB22", true)) by (vm_compute; reflexivity).
    rewrite E in Hu. injection Hu as <-.
    exists r1. split; [exact H1|]. split; [exact He | exact H2].
Defined.

(** ** A new title *)

Lemma Valid_bounds (r : A1) :
  Valid r -> cols_bounded r = true ->
  label (_start_col r) = true /\ 0 < _start_row r
  /\ label (_end_col r) = true /\ 0 <= _end_row r
  /\ col_to_int (_start_col r) <= col_to_int (_end_col r)
  /\ _start_col_int r = col_to_int (_start_col r)
  /\ _end_col_int r = col_to_int (_end_col r).
Proof.
  intros Hv Hc.
  pose proof (Valid_col_order r Hv Hc) as Hord. apply Z.geb_le in Hord.
  pose proof (Valid_dims_ok r Hv) as (Hsc & Hec & Hsr & Her & Hb & _).
  apply Valid_unfold in Hv as (_ & _ & Hsi & Hei).
  unfold cols_bounded in Hc. apply andb_prop in Hc as [Hc1 Hc2].
  rewrite Hc1 in Hb. symmetry in Hb. apply nonzero_true in Hb.
  repeat split; auto; try lia.
  - destruct Hsc as [E|]; [|assumption]. rewrite E in Hc1. discriminate.
  - destruct Hec as [E|]; [|assumption]. rewrite E in Hc2. discriminate.
Qed.

(** X17. Assigning [sheet] on a valid object with both columns (titled or
    not): the title becomes the new one, between double quotes when
    [generate_a1] adds them, the columns and rows stay, and the object is
    valid. *)
Theorem retitle_keeps_bounds (r : A1) (v : string) :
  Valid r -> cols_bounded r = true -> title v \/ raw_title v ->
  exists t' r',
    quoted_title v = Ok t'
    /\ (t' = v \/ t' = String dquote (v ++ String dquote ""))
    /\ sheet_setter r v = Ok r'
    /\ r' = from_parts t' (_start_col r) (_start_row r) (_end_col r) (_end_row r)
    /\ Valid r' /\ _sheet r' = t' /\ dimensions r' = dimensions r.
Proof.
  intros Hv Hc Ht.
  destruct (Valid_bounds r Hv Hc) as (Hsc & Hsr & Hec & Her & Hord & Hsi & Hei).
  destruct (update_from_title r v (_start_col r) (_start_row r) (_end_col r)
              (_end_row r) Ht Hsc Hsr Hec Her Hord) as (t' & Hq & Ht' & Hu & HV).
  exists t', (from_parts t' (_start_col r) (_start_row r) (_end_col r) (_end_row r)).
  split; [exact Hq|]. split; [now apply quoted_title_cases|].
  split; [|split; [reflexivity|split; [exact HV|split; [reflexivity|]]]].
  - unfold sheet_setter, update. cbn [from bind]. unfold from_parts.
    now rewrite Hu.
  - unfold dimensions. cbn. now rewrite Hsi, Hei.
Qed.

Lemma retitle_keeps_bounds_witness :
  sheet_setter (init "A1:B2") "this is a test"
  = Ok (init (String dquote ("this is a test" ++ String dquote "!A1:B2"))).
Proof.
  destruct (retitle_keeps_bounds (init "A1:B2") "this is a test")
    as (t' & r' & Hq & _ & Hs & -> & _).
  - split; reflexivity.
  - reflexivity.
  - right. split; reflexivity.
  - injection Hq as <-. exact Hs.
Defined.
